(** * Pattern Lighting (UE5 plugin): shallow embedding of the runtime core

    The embedding follows
    [Source/PatternLighting/Private/PatternLightComponent.cpp] and
    [Source/PatternLighting/Private/PatternLightingSubsystem.cpp].

    Numbers.  The C++ code computes on [float].  Here a [float] is a real
    number: every arithmetic operation is the exact one, there is no
    rounding, no infinity and no NaN.  All statements below are statements
    about this idealised arithmetic.

    Objects.  Light components are engine objects reached through pointers
    ([UPatternLightComponent*], [TWeakObjectPtr]).  A pointer is a handle
    (a [nat]) into a heap [gmap nat UPatternLightComponent]; a weak pointer
    is valid exactly when its handle is bound in the heap. *)

From Stdlib Require Import Reals Lra Psatz ZArith.
From stdpp Require Import gmap strings list.

#[local] Open Scope R_scope.

(** ** Engine math helpers ([FMath], [FVector], [FLinearColor]) *)

Module FMath.

(** [FMath::Clamp(X, Min, Max)]: [X < Min ? Min : X < Max ? X : Max]. *)
Definition Clamp (X Min Max : R) : R :=
  if Rlt_dec X Min then Min else if Rlt_dec X Max then X else Max.

(** [FMath::Lerp(A, B, Alpha)]: [A + Alpha * (B - A)]. *)
Definition Lerp (A B Alpha : R) : R := A + Alpha * (B - A).

(** [FMath::Max(A, B)]: [B < A ? A : B]. *)
Definition Max (A B : R) : R := if Rlt_dec B A then A else B.

Definition Square (A : R) : R := A * A.

Definition Sin (X : R) : R := sin X.

(** [FMath::Pow(A, B)] is only called with the literal exponents [12.0f]
    and [20.0f]; the exponent is a natural number here. *)
Definition Pow (A : R) (B : nat) : R := A ^ B.

(** Truncation towards zero, as done by C's [fmodf]. *)
Definition Trunc (X : R) : Z :=
  if Rle_dec 0 X then Int_part X else (- Int_part (- X))%Z.

(** [FMath::Fmod(X, Y)]: [0] for a (nearly) zero divisor, else the
    remainder of the truncated division, which has the sign of [X]. *)
Definition Fmod (X Y : R) : R :=
  if Rle_dec (Rabs Y) (1 / 100000000) then 0
  else X - Y * IZR (Trunc (X / Y)).

End FMath.

Record FVector : Type := { X : R; Y : R; Z : R }.

(** [FVector::Dist]: Euclidean distance. *)
Definition Dist (V1 V2 : FVector) : R :=
  sqrt (FMath.Square (X V2 - X V1) + FMath.Square (Y V2 - Y V1)
        + FMath.Square (Z V2 - Z V1)).

(** [FLinearColor]: four float channels; arithmetic is channel-wise over
    all four channels, and [FLinearColor::Black] is opaque black. *)
Record FLinearColor : Type := { cR : R; cG : R; cB : R; cA : R }.

Module Color.
Definition Black : FLinearColor := {| cR := 0; cG := 0; cB := 0; cA := 1 |}.
Definition White : FLinearColor := {| cR := 1; cG := 1; cB := 1; cA := 1 |}.

(** [operator+] / [operator+=] *)
Definition add (c d : FLinearColor) : FLinearColor :=
  {| cR := cR c + cR d; cG := cG c + cG d; cB := cB c + cB d; cA := cA c + cA d |}.

(** [operator*(float)] *)
Definition scale (c : FLinearColor) (s : R) : FLinearColor :=
  {| cR := cR c * s; cG := cG c * s; cB := cB c * s; cA := cA c * s |}.

(** [operator/=(float)] *)
Definition div (c : FLinearColor) (s : R) : FLinearColor :=
  {| cR := cR c / s; cG := cG c / s; cB := cB c / s; cA := cA c / s |}.
End Color.

(** ** PatternTypes.h *)

Inductive ELightPattern : Type :=
  | Steady | Pulse | Flicker | Strobe | Candle | Fluorescent | Lightning
  | Fire | Alarm | Underwater | Heartbeat | Breathing | Custom.

(** [UCurveFloat]: an engine asset; only its time range end and its
    sampling function are used. *)
Record UCurveFloat : Type := {
  GetTimeRangeY : R;
  GetFloatValue : R -> R
}.

(** [UCurveLinearColor], same treatment. *)
Record UCurveLinearColor : Type := {
  GetColorTimeRangeY : R;
  GetLinearColorValue : R -> FLinearColor
}.

(** [FPatternLightSettings]; a null curve pointer is [None]. *)
Record FPatternLightSettings : Type := {
  Pattern : ELightPattern;
  Speed : R;
  PhaseOffset : R;
  MinIntensity : R;
  MaxIntensity : R;
  CustomCurve : option UCurveFloat;
  bEnableColorShift : bool;
  ColorCurve : option UCurveLinearColor
}.

(** [FPatternLightingConfig] (the fields the runtime core reads). *)
Record FPatternLightingConfig : Type := {
  bEnabled : bool;
  GlobalIntensity : R;
  GlobalSpeed : R
}.

(** [FName]; [NAME_None] is the name "None". *)
Definition FName : Type := string.
Definition NAME_None : FName := "None"%string.

(** ** PatternLightComponent.h / .cpp *)

(** [UPatternLightComponent].  The last four fields are the state inherited
    from the engine's light component that the code reads or writes
    ([GetComponentLocation], [SetIntensity], [SetLightColor],
    [CastShadows]). *)
Record UPatternLightComponent : Type := {
  PatternSettings : FPatternLightSettings;
  BaseColor : FLinearColor;
  BaseIntensity : R;
  LightRadius : R;
  bCastPatternShadows : bool;
  SyncGroup : FName;
  CurrentTime : R;
  FlashTimer : R;
  FlashIntensityMultiplier : R;
  ComponentLocation : FVector;
  Intensity : R;
  LightColor : FLinearColor;
  CastShadows : bool
}.

Module Light.

Definition with_settings (L : UPatternLightComponent) (s : FPatternLightSettings)
  : UPatternLightComponent :=
  {| PatternSettings := s; BaseColor := BaseColor L;
     BaseIntensity := BaseIntensity L; LightRadius := LightRadius L;
     bCastPatternShadows := bCastPatternShadows L; SyncGroup := SyncGroup L;
     CurrentTime := CurrentTime L; FlashTimer := FlashTimer L;
     FlashIntensityMultiplier := FlashIntensityMultiplier L;
     ComponentLocation := ComponentLocation L; Intensity := Intensity L;
     LightColor := LightColor L; CastShadows := CastShadows L |}.

Definition with_time (L : UPatternLightComponent) (t : R) : UPatternLightComponent :=
  {| PatternSettings := PatternSettings L; BaseColor := BaseColor L;
     BaseIntensity := BaseIntensity L; LightRadius := LightRadius L;
     bCastPatternShadows := bCastPatternShadows L; SyncGroup := SyncGroup L;
     CurrentTime := t; FlashTimer := FlashTimer L;
     FlashIntensityMultiplier := FlashIntensityMultiplier L;
     ComponentLocation := ComponentLocation L; Intensity := Intensity L;
     LightColor := LightColor L; CastShadows := CastShadows L |}.

Definition with_flash (L : UPatternLightComponent) (timer mult : R)
  : UPatternLightComponent :=
  {| PatternSettings := PatternSettings L; BaseColor := BaseColor L;
     BaseIntensity := BaseIntensity L; LightRadius := LightRadius L;
     bCastPatternShadows := bCastPatternShadows L; SyncGroup := SyncGroup L;
     CurrentTime := CurrentTime L; FlashTimer := timer;
     FlashIntensityMultiplier := mult;
     ComponentLocation := ComponentLocation L; Intensity := Intensity L;
     LightColor := LightColor L; CastShadows := CastShadows L |}.

Definition with_render (L : UPatternLightComponent) (i : R) (c : FLinearColor)
    (shadows : bool) : UPatternLightComponent :=
  {| PatternSettings := PatternSettings L; BaseColor := BaseColor L;
     BaseIntensity := BaseIntensity L; LightRadius := LightRadius L;
     bCastPatternShadows := bCastPatternShadows L; SyncGroup := SyncGroup L;
     CurrentTime := CurrentTime L; FlashTimer := FlashTimer L;
     FlashIntensityMultiplier := FlashIntensityMultiplier L;
     ComponentLocation := ComponentLocation L; Intensity := i;
     LightColor := c; CastShadows := shadows |}.

(** The value computed by the [switch] of [EvaluatePattern], before the
    final [Lerp]: the local [Value], initialised to [1.0f]. *)
Definition RawPattern (L : UPatternLightComponent) (T : R) : R :=
  match Pattern (PatternSettings L) with
  | Steady => 1
  | Pulse => 0.5 + 0.5 * FMath.Sin (T * 2 * PI)
  | Flicker => 0.7 + 0.3 * FMath.Sin (T * 20) * FMath.Sin (T * 7.3)
  | Strobe => if Rgt_dec (FMath.Sin (T * 10)) 0 then 1 else 0
  | Candle =>
      let Flicker :=
        FMath.Sin (T * 12) * FMath.Sin (T * 5.7) * FMath.Sin (T * 3.1) in
      0.8 + 0.2 * Flicker
  | Fluorescent =>
      let Startup := FMath.Clamp (FMath.Fmod T 5 / 2) 0 1 in
      let Buzz := 0.05 * FMath.Sin (T * 120) in
      Startup + Buzz * Startup
  | Lightning => FMath.Pow (FMath.Max 0 (FMath.Sin (T * 0.5))) 20
  | Fire =>
      0.7 + 0.3 * FMath.Sin (T * 8) * FMath.Sin (T * 4.3) * FMath.Sin (T * 2.1)
  | Alarm => if Rgt_dec (FMath.Sin (T * 4)) 0 then 1 else 0.2
  | Underwater =>
      let Location := ComponentLocation L in
      let Caustic :=
        FMath.Sin (X Location * 0.01 + T) * FMath.Sin (Y Location * 0.01 + T * 0.7) in
      0.7 + 0.3 * Caustic
  | Heartbeat =>
      let Beat := FMath.Pow (FMath.Sin (T * 2.5)) 12 in
      let Beat2 := FMath.Pow (FMath.Sin (T * 2.5 + 0.3)) 12 * 0.5 in
      FMath.Max Beat Beat2
  | Breathing => 0.3 + 0.7 * (FMath.Sin (T * 0.5) * 0.5 + 0.5)
  | Custom =>
      match CustomCurve (PatternSettings L) with
      | Some Curve =>
          let CurveTime := FMath.Fmod T (GetTimeRangeY Curve) in
          GetFloatValue Curve CurveTime
      | None => 1
      end
  end.

(** [UPatternLightComponent::EvaluatePattern] *)
Definition EvaluatePattern (L : UPatternLightComponent) (T : R) : R :=
  let Value := RawPattern L T in
  FMath.Lerp (MinIntensity (PatternSettings L)) (MaxIntensity (PatternSettings L)) Value.

Definition CalculatePatternValue (L : UPatternLightComponent) (Time : R) : R :=
  EvaluatePattern L Time.

Definition GetCurrentIntensity (L : UPatternLightComponent) : R :=
  let PatternValue := EvaluatePattern L (CurrentTime L) in
  BaseIntensity L * PatternValue * FlashIntensityMultiplier L.

Definition GetCurrentColor (L : UPatternLightComponent) : FLinearColor :=
  if bEnableColorShift (PatternSettings L) then
    match ColorCurve (PatternSettings L) with
    | Some Curve =>
        let CurveTime := FMath.Fmod (CurrentTime L) (GetColorTimeRangeY Curve) in
        GetLinearColorValue Curve CurveTime
    | None => BaseColor L
    end
  else BaseColor L.

Definition SetPattern (NewPattern : ELightPattern) (L : UPatternLightComponent)
  : UPatternLightComponent :=
  let s := PatternSettings L in
  with_settings L
    {| Pattern := NewPattern; Speed := Speed s; PhaseOffset := PhaseOffset s;
       MinIntensity := MinIntensity s; MaxIntensity := MaxIntensity s;
       CustomCurve := CustomCurve s; bEnableColorShift := bEnableColorShift s;
       ColorCurve := ColorCurve s |}.

Definition SetPatternSpeed (NewSpeed : R) (L : UPatternLightComponent)
  : UPatternLightComponent :=
  let s := PatternSettings L in
  with_settings L
    {| Pattern := Pattern s; Speed := FMath.Clamp NewSpeed 0.01 10;
       PhaseOffset := PhaseOffset s;
       MinIntensity := MinIntensity s; MaxIntensity := MaxIntensity s;
       CustomCurve := CustomCurve s; bEnableColorShift := bEnableColorShift s;
       ColorCurve := ColorCurve s |}.

Definition TriggerFlash (Duration FlashIntensity : R) (L : UPatternLightComponent)
  : UPatternLightComponent :=
  with_flash L Duration FlashIntensity.

(** [SyncWith(Other)] for a non-null [Other]; the caller passes the
    object [Other] points to, as read at the time of the call. *)
Definition SyncWith (Other : UPatternLightComponent) (L : UPatternLightComponent)
  : UPatternLightComponent :=
  let s := PatternSettings L in
  with_settings (with_time L (CurrentTime Other))
    {| Pattern := Pattern s; Speed := Speed s;
       PhaseOffset := PhaseOffset (PatternSettings Other);
       MinIntensity := MinIntensity s; MaxIntensity := MaxIntensity s;
       CustomCurve := CustomCurve s; bEnableColorShift := bEnableColorShift s;
       ColorCurve := ColorCurve s |}.

Definition UpdateLightProperties (L : UPatternLightComponent) : UPatternLightComponent :=
  let NewIntensity := GetCurrentIntensity L in
  let NewColor := GetCurrentColor L in
  with_render L NewIntensity NewColor
    (if bCastPatternShadows L then true else CastShadows L).

(** [TickComponent(DeltaTime, ...)] *)
Definition TickComponent (DeltaTime : R) (L : UPatternLightComponent)
  : UPatternLightComponent :=
  let L1 := with_time L (CurrentTime L + DeltaTime * Speed (PatternSettings L)) in
  let L2 :=
    if Rgt_dec (FlashTimer L1) 0 then
      let timer := FlashTimer L1 - DeltaTime in
      if Rle_dec timer 0 then with_flash L1 timer 1
      else with_flash L1 timer (FlashIntensityMultiplier L1)
    else L1 in
  UpdateLightProperties L2.

(** A run of frames: [TickComponent] once per delta time, in order. *)
Definition TickMany (DeltaTimes : list R) (L : UPatternLightComponent)
  : UPatternLightComponent :=
  fold_left (fun acc dt => TickComponent dt acc) DeltaTimes L.

End Light.

(** ** PatternLightingSubsystem.h / .cpp *)

(** [UPatternReflectionComponent]: what the registry reads of a probe. *)
Record UPatternReflectionComponent : Type := {
  ReflectionLocation : FVector;
  ReflectionIntensity : R;
  ReflectionRadius : R
}.

(** [UPatternLightingSubsystem]: the registries hold weak pointers, that is
    handles. *)
Record UPatternLightingSubsystem : Type := {
  GlobalConfig : FPatternLightingConfig;
  MasterTime : R;
  RegisteredLights : list nat;
  RegisteredReflections : list nat;
  SyncGroups : gmap string (list nat);
  bPaused : bool
}.

(** The state the subsystem code runs in: the subsystem object, the heaps of
    live engine objects its weak pointers refer to, and the function-static
    [CleanupTimer] of [Tick]. *)
Record World : Type := {
  Sub : UPatternLightingSubsystem;
  LightHeap : gmap nat UPatternLightComponent;
  ReflectionHeap : gmap nat UPatternReflectionComponent;
  CleanupTimer : R
}.

Module Subsystem.

Definition with_sub (w : World) (s : UPatternLightingSubsystem) : World :=
  {| Sub := s; LightHeap := LightHeap w; ReflectionHeap := ReflectionHeap w;
     CleanupTimer := CleanupTimer w |}.

Definition with_heap (w : World) (h : gmap nat UPatternLightComponent) : World :=
  {| Sub := Sub w; LightHeap := h; ReflectionHeap := ReflectionHeap w;
     CleanupTimer := CleanupTimer w |}.

Definition with_cleanup_timer (w : World) (t : R) : World :=
  {| Sub := Sub w; LightHeap := LightHeap w; ReflectionHeap := ReflectionHeap w;
     CleanupTimer := t |}.

Definition with_config (s : UPatternLightingSubsystem) (c : FPatternLightingConfig)
  : UPatternLightingSubsystem :=
  {| GlobalConfig := c; MasterTime := MasterTime s;
     RegisteredLights := RegisteredLights s;
     RegisteredReflections := RegisteredReflections s;
     SyncGroups := SyncGroups s; bPaused := bPaused s |}.

Definition with_master_time (s : UPatternLightingSubsystem) (t : R)
  : UPatternLightingSubsystem :=
  {| GlobalConfig := GlobalConfig s; MasterTime := t;
     RegisteredLights := RegisteredLights s;
     RegisteredReflections := RegisteredReflections s;
     SyncGroups := SyncGroups s; bPaused := bPaused s |}.

Definition with_paused (s : UPatternLightingSubsystem) (b : bool)
  : UPatternLightingSubsystem :=
  {| GlobalConfig := GlobalConfig s; MasterTime := MasterTime s;
     RegisteredLights := RegisteredLights s;
     RegisteredReflections := RegisteredReflections s;
     SyncGroups := SyncGroups s; bPaused := b |}.

Definition with_registries (s : UPatternLightingSubsystem)
    (ls rs : list nat) (gs : gmap string (list nat)) : UPatternLightingSubsystem :=
  {| GlobalConfig := GlobalConfig s; MasterTime := MasterTime s;
     RegisteredLights := ls; RegisteredReflections := rs;
     SyncGroups := gs; bPaused := bPaused s |}.

(** [TWeakObjectPtr::IsValid] / [Get() != nullptr] *)
Definition IsValidLight (w : World) (h : nat) : bool :=
  bool_decide (is_Some (LightHeap w !! h)).

Definition IsValidReflection (w : World) (h : nat) : bool :=
  bool_decide (is_Some (ReflectionHeap w !! h)).

Definition CleanupStaleReferences (w : World) : World :=
  let s := Sub w in
  with_sub w
    (with_registries s
       (List.filter (IsValidLight w) (RegisteredLights s))
       (List.filter (IsValidReflection w) (RegisteredReflections s))
       (List.filter (IsValidLight w) <$> SyncGroups s)).

(** [Tick(DeltaTime)] *)
Definition Tick (DeltaTime : R) (w : World) : World :=
  let s := Sub w in
  if negb (bEnabled (GlobalConfig s)) || bPaused s then w
  else
    let w1 :=
      with_sub w
        (with_master_time s (MasterTime s + DeltaTime * GlobalSpeed (GlobalConfig s))) in
    let w2 := with_cleanup_timer w1 (CleanupTimer w1 + DeltaTime) in
    if Rgt_dec (CleanupTimer w2) 5
    then with_cleanup_timer (CleanupStaleReferences w2) 0
    else w2.

(** [RegisterLight(Light)]: a null pointer is a handle not bound in the
    heap. *)
Definition RegisterLight (Light : nat) (w : World) : World :=
  let s := Sub w in
  match LightHeap w !! Light with
  | Some L =>
      if bool_decide (Light ∈ RegisteredLights s) then w
      else
        let gs :=
          if bool_decide (SyncGroup L = NAME_None) then SyncGroups s
          else <[SyncGroup L := default [] (SyncGroups s !! SyncGroup L) ++ [Light]]>
                 (SyncGroups s) in
        with_sub w
          (with_registries s (RegisteredLights s ++ [Light])
             (RegisteredReflections s) gs)
  | None => w
  end.

Definition remove_all (h : nat) (l : list nat) : list nat :=
  List.filter (fun k => negb (Nat.eqb k h)) l.

Definition UnregisterLight (Light : nat) (w : World) : World :=
  let s := Sub w in
  let ls := remove_all Light (RegisteredLights s) in
  let gs :=
    match LightHeap w !! Light with
    | Some L =>
        if bool_decide (SyncGroup L = NAME_None) then SyncGroups s
        else match SyncGroups s !! SyncGroup L with
             | Some Group => <[SyncGroup L := remove_all Light Group]> (SyncGroups s)
             | None => SyncGroups s
             end
    | None => SyncGroups s
    end in
  with_sub w (with_registries s ls (RegisteredReflections s) gs).

(** [GetLightsInSyncGroup(GroupName)]: the live members, in group order. *)
Definition GetLightsInSyncGroup (GroupName : FName) (w : World) : list nat :=
  match SyncGroups (Sub w) !! GroupName with
  | Some Group => List.filter (IsValidLight w) Group
  | None => []
  end.

(** One iteration of the loop of [GetCombinedIntensityAt]. *)
Definition IntensityStep (Location : FVector) (w : World)
    (TotalIntensity : R) (WeakLight : nat) : R :=
  match LightHeap w !! WeakLight with
  | Some L =>
      let Distance := Dist Location (ComponentLocation L) in
      if Rlt_dec Distance (LightRadius L) then
        let Falloff := 1 - Distance / LightRadius L in
        let Falloff := FMath.Square Falloff in
        TotalIntensity + Light.GetCurrentIntensity L * Falloff
      else TotalIntensity
  | None => TotalIntensity
  end.

Definition GetCombinedIntensityAt (Location : FVector) (w : World) : R :=
  let TotalIntensity :=
    fold_left (IntensityStep Location w) (RegisteredLights (Sub w)) 0 in
  TotalIntensity * GlobalIntensity (GlobalConfig (Sub w)).

(** One iteration of the loop of [GetCombinedColorAt], on the pair
    ([TotalColor], [TotalWeight]). *)
Definition ColorStep (Location : FVector) (w : World)
    (acc : FLinearColor * R) (WeakLight : nat) : FLinearColor * R :=
  let '(TotalColor, TotalWeight) := acc in
  match LightHeap w !! WeakLight with
  | Some L =>
      let Distance := Dist Location (ComponentLocation L) in
      if Rlt_dec Distance (LightRadius L) then
        let Weight := 1 - Distance / LightRadius L in
        let Weight := Weight * Light.GetCurrentIntensity L in
        (Color.add TotalColor (Color.scale (Light.GetCurrentColor L) Weight),
         TotalWeight + Weight)
      else acc
  | None => acc
  end.

Definition GetCombinedColorAt (Location : FVector) (w : World) : FLinearColor :=
  let '(TotalColor, TotalWeight) :=
    fold_left (ColorStep Location w) (RegisteredLights (Sub w)) (Color.Black, 0) in
  if Rgt_dec TotalWeight 0 then Color.div TotalColor TotalWeight else TotalColor.

Definition SetGlobalIntensity (Intensity : R) (w : World) : World :=
  let c := GlobalConfig (Sub w) in
  with_sub w
    (with_config (Sub w)
       {| bEnabled := bEnabled c;
          GlobalIntensity := FMath.Clamp Intensity 0 2;
          GlobalSpeed := GlobalSpeed c |}).

Definition SetGlobalSpeed (Speed : R) (w : World) : World :=
  let c := GlobalConfig (Sub w) in
  with_sub w
    (with_config (Sub w)
       {| bEnabled := bEnabled c;
          GlobalIntensity := GlobalIntensity c;
          GlobalSpeed := FMath.Clamp Speed 0.1 5 |}).

Definition PauseAll (w : World) : World := with_sub w (with_paused (Sub w) true).
Definition ResumeAll (w : World) : World := with_sub w (with_paused (Sub w) false).

Definition TriggerFlashAtLocation (Location : FVector) (Radius Duration Intensity : R)
    (w : World) : World :=
  with_heap w
    (fold_left
       (fun heap WeakLight =>
          match heap !! WeakLight with
          | Some L =>
              let Distance := Dist Location (ComponentLocation L) in
              if Rlt_dec Distance Radius then
                let FalloffIntensity := Intensity * (1 - Distance / Radius) in
                <[WeakLight := Light.TriggerFlash Duration FalloffIntensity L]> heap
              else heap
          | None => heap
          end)
       (RegisteredLights (Sub w)) (LightHeap w)).

(** The body of the loop of [SyncGroup]: [Lights[i]->SyncWith(Master)].
    Both pointers are dereferenced in the heap as it is at that
    iteration, so a member that is the master itself is handled as the
    code handles it. *)
Definition SyncStep (Master : nat) (heap : gmap nat UPatternLightComponent)
    (Member : nat) : gmap nat UPatternLightComponent :=
  match heap !! Master, heap !! Member with
  | Some M, Some L => <[Member := Light.SyncWith M L]> heap
  | _, _ => heap
  end.

(** [SyncGroup(GroupName)] *)
Definition SyncGroup (GroupName : FName) (w : World) : World :=
  let Lights := GetLightsInSyncGroup GroupName w in
  if bool_decide (1 < length Lights)%nat then
    match Lights with
    | Master :: Rest => with_heap w (fold_left (SyncStep Master) Rest (LightHeap w))
    | [] => w
    end
  else w.

End Subsystem.

(** The engine calls [TickComponent] on a component through its pointer. *)
Definition TickComponentAt (h : nat) (DeltaTime : R) (w : World) : World :=
  Subsystem.with_heap w (alter (Light.TickComponent DeltaTime) h (LightHeap w)).

Definition SetPatternSpeedAt (h : nat) (NewSpeed : R) (w : World) : World :=
  Subsystem.with_heap w (alter (Light.SetPatternSpeed NewSpeed) h (LightHeap w)).

Definition TriggerFlashAt (h : nat) (Duration FlashIntensity : R) (w : World) : World :=
  Subsystem.with_heap w (alter (Light.TriggerFlash Duration FlashIntensity) h (LightHeap w)).

(** ** Blueprint library: the standalone evaluator *)

Module BlueprintLibrary.

(** [UPatternLightingBlueprintLibrary::EvaluatePattern(Pattern, Time, Speed)] *)
Definition EvaluatePattern (Pattern : ELightPattern) (Time Speed : R) : R :=
  let T := Time * Speed in
  match Pattern with
  | Steady => 1
  | Pulse => 0.5 + 0.5 * FMath.Sin (T * 2 * PI)
  | Flicker => 0.7 + 0.3 * FMath.Sin (T * 20) * FMath.Sin (T * 7.3)
  | Strobe => if Rgt_dec (FMath.Sin (T * 10)) 0 then 1 else 0
  | Candle =>
      0.8 + 0.2 * FMath.Sin (T * 12) * FMath.Sin (T * 5.7) * FMath.Sin (T * 3.1)
  | Fire => 0.7 + 0.3 * FMath.Sin (T * 8) * FMath.Sin (T * 4.3)
  | Alarm => if Rgt_dec (FMath.Sin (T * 4)) 0 then 1 else 0.2
  | _ => 1
  end.

End BlueprintLibrary.

(** ** Default objects (the in-class initialisers of the headers) *)

Definition Origin : FVector := {| X := 0; Y := 0; Z := 0 |}.

Definition DefaultSettings : FPatternLightSettings :=
  {| Pattern := Steady; Speed := 1; PhaseOffset := 0;
     MinIntensity := 0; MaxIntensity := 1; CustomCurve := None;
     bEnableColorShift := false; ColorCurve := None |}.

Definition DefaultLight : UPatternLightComponent :=
  {| PatternSettings := DefaultSettings; BaseColor := Color.White;
     BaseIntensity := 5000; LightRadius := 1000;
     bCastPatternShadows := true; SyncGroup := NAME_None;
     CurrentTime := 0; FlashTimer := 0; FlashIntensityMultiplier := 1;
     ComponentLocation := Origin; Intensity := 5000;
     LightColor := Color.White; CastShadows := true |}.

Definition DefaultConfig : FPatternLightingConfig :=
  {| bEnabled := true; GlobalIntensity := 1; GlobalSpeed := 1 |}.

Definition DefaultSubsystem : UPatternLightingSubsystem :=
  {| GlobalConfig := DefaultConfig; MasterTime := 0;
     RegisteredLights := []; RegisteredReflections := [];
     SyncGroups := ∅; bPaused := false |}.

Definition EmptyWorld : World :=
  {| Sub := DefaultSubsystem; LightHeap := ∅; ReflectionHeap := ∅;
     CleanupTimer := 0 |}.

(** ** Auxiliary definitions used to state the properties *)

(** Sum of the delta times of a run of frames. *)
Definition Elapsed (dts : list R) : R := fold_right Rplus 0 dts.

(** A call of one of the three clamping setters; [SetPatternSpeed] is
    called on a component through its pointer. *)
Inductive SetterCall : Type :=
  | CallSetGlobalIntensity (Intensity : R)
  | CallSetGlobalSpeed (Speed : R)
  | CallSetPatternSpeed (Light : nat) (NewSpeed : R).

Definition RunSetter (w : World) (c : SetterCall) : World :=
  match c with
  | CallSetGlobalIntensity v => Subsystem.SetGlobalIntensity v w
  | CallSetGlobalSpeed v => Subsystem.SetGlobalSpeed v w
  | CallSetPatternSpeed h v => SetPatternSpeedAt h v w
  end.

Definition RunSetters (calls : list SetterCall) (w : World) : World :=
  fold_left RunSetter calls w.

(** The documented ranges of the three clamped fields. *)
Definition InDocumentedRanges (w : World) : Prop :=
  0 <= GlobalIntensity (GlobalConfig (Sub w)) <= 2 /\
  0.1 <= GlobalSpeed (GlobalConfig (Sub w)) <= 5 /\
  (forall h L, LightHeap w !! h = Some L -> 0.01 <= Speed (PatternSettings L) <= 10).

(** What "clamping [v] into [[lo, hi]]" means. *)
Definition ClampedInto (lo hi v r : R) : Prop :=
  lo <= r <= hi /\ (lo <= v <= hi -> r = v) /\ (v < lo -> r = lo) /\ (hi < v -> r = hi).

Definition OneLightWorld (L : UPatternLightComponent) : World :=
  {| Sub := Subsystem.with_registries DefaultSubsystem [0%nat] [] ∅;
     LightHeap := {[ 0%nat := L ]}; ReflectionHeap := ∅; CleanupTimer := 0 |}.

(** The closed-form table of the specification (section 4.1), written
    from the specification's words, to be compared with the evaluators of
    the code.  [pos] is the world position (x, y) when it is available,
    [curve] the custom curve when one is supplied. *)
Definition SpecTable (kind : ELightPattern) (pos : option (R * R))
    (curve : option UCurveFloat) (t : R) : R :=
  match kind with
  | Steady => 1
  | Pulse => 0.5 + 0.5 * sin (2 * PI * t)
  | Flicker => 0.7 + 0.3 * sin (20 * t) * sin (7.3 * t)
  | Strobe => if Rgt_dec (sin (10 * t)) 0 then 1 else 0
  | Candle => 0.8 + 0.2 * sin (12 * t) * sin (5.7 * t) * sin (3.1 * t)
  | Fluorescent =>
      let s := FMath.Clamp (FMath.Fmod t 5 / 2) 0 1 in
      let buzz := 0.05 * sin (120 * t) in
      s + buzz * s
  | Lightning => (Rmax 0 (sin (0.5 * t))) ^ 20
  | Fire => 0.7 + 0.3 * sin (8 * t) * sin (4.3 * t) * sin (2.1 * t)
  | Alarm => if Rgt_dec (sin (4 * t)) 0 then 1 else 0.2
  | Underwater =>
      match pos with
      | Some (x, y) => 0.7 + 0.3 * sin (0.01 * x + t) * sin (0.01 * y + 0.7 * t)
      | None => 0.7 + 0.3 * sin t * sin (0.7 * t)
      end
  | Heartbeat => Rmax (sin (2.5 * t) ^ 12) (0.5 * sin (2.5 * t + 0.3) ^ 12)
  | Breathing => 0.3 + 0.7 * (0.5 * sin (0.5 * t) + 0.5)
  | Custom =>
      match curve with
      | Some c => GetFloatValue c (FMath.Fmod t (GetTimeRangeY c))
      | None => 0
      end
  end.

(** A light that differs from the default one in its pattern settings. *)
Definition LightWith (kind : ELightPattern) (lo hi : R) (curve : option UCurveFloat)
  : UPatternLightComponent :=
  Light.with_settings DefaultLight
    {| Pattern := kind; Speed := 1; PhaseOffset := 0;
       MinIntensity := lo; MaxIntensity := hi; CustomCurve := curve;
       bEnableColorShift := false; ColorCurve := None |}.

(** "Enabled and not paused". *)
Definition Running (w : World) : Prop :=
  bEnabled (GlobalConfig (Sub w)) = true /\ bPaused (Sub w) = false.

(** One frame as the engine drives it: the subsystem's [Tick], and
    [TickComponent] on every live component. *)
Definition Frame (DeltaTime : R) (w : World) : World :=
  Subsystem.with_heap (Subsystem.Tick DeltaTime w)
    (Light.TickComponent DeltaTime <$> LightHeap w).

(** The phase advance as the specification words it: while running, a step
    by [dt] moves every registered light's phase time by
    [dt * speed * globalSpeed]. *)
Definition CompoundedPhaseAdvance (step : R -> World -> World) : Prop :=
  forall dt w h L,
    Running w -> h ∈ RegisteredLights (Sub w) -> LightHeap w !! h = Some L ->
    exists L', LightHeap (step dt w) !! h = Some L' /\
      CurrentTime L' =
      CurrentTime L + dt * Speed (PatternSettings L) * GlobalSpeed (GlobalConfig (Sub w)).

(** Sum of a list of reals. *)
Definition Rsum (l : list R) : R := fold_right Rplus 0 l.

(** The live registered lights, in registration order (a light registered
    under a handle that is no longer bound is skipped). *)
Definition LiveLights (w : World) : list UPatternLightComponent :=
  omap (fun h => LightHeap w !! h) (RegisteredLights (Sub w)).

(** "The query point is within the light's own radius" (strictly). *)
Definition InRangeb (Location : FVector) (L : UPatternLightComponent) : bool :=
  if Rlt_dec (Dist Location (ComponentLocation L)) (LightRadius L) then true else false.

Definition LightsInRange (Location : FVector) (w : World)
  : list UPatternLightComponent :=
  List.filter (InRangeb Location) (LiveLights w).

(** [currentIntensity * (1 - distance / radius)^2] *)
Definition QuadraticTerm (Location : FVector) (L : UPatternLightComponent) : R :=
  Light.GetCurrentIntensity L
  * (1 - Dist Location (ComponentLocation L) / LightRadius L) ^ 2.

(** [(1 - distance / radius) * currentIntensity] *)
Definition LinearWeight (Location : FVector) (L : UPatternLightComponent) : R :=
  (1 - Dist Location (ComponentLocation L) / LightRadius L)
  * Light.GetCurrentIntensity L.

(** Weighted sum of one colour channel over a list of lights. *)
Definition ChannelSum (ch : FLinearColor -> R) (Location : FVector)
    (ls : list UPatternLightComponent) : R :=
  Rsum (map (fun L => ch (Light.GetCurrentColor L) * LinearWeight Location L) ls).

(** The point at distance [x] from the origin on the first axis. *)
Definition At (x : R) : FVector := {| X := x; Y := 0; Z := 0 |}.

Definition Red : FLinearColor := {| cR := 1; cG := 0; cB := 0; cA := 1 |}.

(** A default light (steady, raw value 1, range [[0, 1]]) with the given
    base colour and base intensity, placed at the origin. *)
Definition PlainLight (c : FLinearColor) (i : R) : UPatternLightComponent :=
  {| PatternSettings := DefaultSettings; BaseColor := c;
     BaseIntensity := i; LightRadius := 1000;
     bCastPatternShadows := true; SyncGroup := NAME_None;
     CurrentTime := 0; FlashTimer := 0; FlashIntensityMultiplier := 1;
     ComponentLocation := Origin; Intensity := i;
     LightColor := c; CastShadows := true |}.

(** Two lights at the origin with the same base intensity; the second is
    red and has been flashed with multiplier [-1]. *)
Definition TwoLightWorld : World :=
  {| Sub := Subsystem.with_registries DefaultSubsystem [0%nat; 1%nat] [] ∅;
     LightHeap :=
       <[ 1%nat := Light.TriggerFlash 1 (-1) (PlainLight Red 5000) ]>
         {[ 0%nat := PlainLight Color.White 5000 ]};
     ReflectionHeap := ∅; CleanupTimer := 0 |}.

(** A channel of a colour, for which the colour operations are the
    operations on that channel. *)
Definition LinearChannel (ch : FLinearColor -> R) : Prop :=
  (forall c d, ch (Color.add c d) = ch c + ch d) /\
  (forall c s, ch (Color.scale c s) = ch c * s) /\
  (forall c s, ch (Color.div c s) = ch c / s).

(** "[L] has the phase time and phase offset of [M]". *)
Definition SyncedTo (M L : UPatternLightComponent) : Prop :=
  CurrentTime L = CurrentTime M /\
  PhaseOffset (PatternSettings L) = PhaseOffset (PatternSettings M).

(** A default light in sync group [g] with the given phase time and phase
    offset. *)
Definition GroupLight (g : FName) (t off : R) : UPatternLightComponent :=
  {| PatternSettings :=
       {| Pattern := Pulse; Speed := 1; PhaseOffset := off;
          MinIntensity := 0; MaxIntensity := 1; CustomCurve := None;
          bEnableColorShift := false; ColorCurve := None |};
     BaseColor := Color.White; BaseIntensity := 5000; LightRadius := 1000;
     bCastPatternShadows := true; SyncGroup := g;
     CurrentTime := t; FlashTimer := 0; FlashIntensityMultiplier := 1;
     ComponentLocation := Origin; Intensity := 5000;
     LightColor := Color.White; CastShadows := true |}.

(** Three lights of group "lamps", registered one after the other. *)
Definition ThreeLampWorld : World :=
  Subsystem.RegisterLight 2
    (Subsystem.RegisterLight 1
       (Subsystem.RegisterLight 0
          {| Sub := DefaultSubsystem;
             LightHeap :=
               <[ 2%nat := GroupLight "lamps" 7 0.75 ]>
                 (<[ 1%nat := GroupLight "lamps" 3 0.5 ]>
                    {[ 0%nat := GroupLight "lamps" 1 0.25 ]});
             ReflectionHeap := ∅; CleanupTimer := 0 |})).

(** The default world with one default light and global speed 2. *)
Definition FastWorld : World :=
  Subsystem.SetGlobalSpeed 2 (OneLightWorld DefaultLight).

(** ** Further functions of the subsystem and of the Blueprint library *)

(** [FVector::DotProduct] *)
Definition DotProduct (A B : FVector) : R := X A * X B + Y A * Y B + Z A * Z B.

(** [UPatternLightingSubsystem::Deinitialize] *)
Definition Deinitialize (w : World) : World :=
  Subsystem.with_sub w (Subsystem.with_registries (Sub w) [] [] ∅).

(** [UPatternLightingSubsystem::RegisterReflection]; a null pointer is a
    handle not bound in the heap. *)
Definition RegisterReflection (Reflection : nat) (w : World) : World :=
  let s := Sub w in
  match ReflectionHeap w !! Reflection with
  | Some _ =>
      if bool_decide (Reflection ∈ RegisteredReflections s) then w
      else
        Subsystem.with_sub w
          (Subsystem.with_registries s (RegisteredLights s)
             (RegisteredReflections s ++ [Reflection]) (SyncGroups s))
  | None => w
  end.

(** [UPatternLightingSubsystem::UnregisterReflection] *)
Definition UnregisterReflection (Reflection : nat) (w : World) : World :=
  let s := Sub w in
  Subsystem.with_sub w
    (Subsystem.with_registries s (RegisteredLights s)
       (Subsystem.remove_all Reflection (RegisteredReflections s)) (SyncGroups s)).

(** One iteration of the loop of [GetLightsAtLocation]. *)
Definition LightsAtStep (Location : FVector) (Radius : R) (w : World)
    (Result : list nat) (WeakLight : nat) : list nat :=
  match LightHeap w !! WeakLight with
  | Some L =>
      let Distance := Dist Location (ComponentLocation L) in
      if Rle_dec Distance (Radius + LightRadius L) then Result ++ [WeakLight]
      else Result
  | None => Result
  end.

(** [UPatternLightingSubsystem::GetLightsAtLocation]: the result holds
    pointers, that is handles. *)
Definition GetLightsAtLocation (Location : FVector) (Radius : R) (w : World)
  : list nat :=
  fold_left (LightsAtStep Location Radius w) (RegisteredLights (Sub w)) [].

(** One iteration of the loop of [GetBestReflectionAt], on the pair
    ([Best], [BestWeight]). *)
Definition BestReflectionStep (Location : FVector) (w : World)
    (acc : option nat * R) (WeakReflection : nat) : option nat * R :=
  match ReflectionHeap w !! WeakReflection with
  | Some Reflection =>
      let Distance := Dist Location (ReflectionLocation Reflection) in
      let Radius := ReflectionRadius Reflection in
      if Rlt_dec Distance Radius then
        let Weight := ReflectionIntensity Reflection * (1 - Distance / Radius) in
        if Rgt_dec Weight (snd acc) then (Some WeakReflection, Weight) else acc
      else acc
  | None => acc
  end.

(** [UPatternLightingSubsystem::GetBestReflectionAt]; [nullptr] is [None]. *)
Definition GetBestReflectionAt (Location : FVector) (w : World) : option nat :=
  fst (fold_left (BestReflectionStep Location w)
         (RegisteredReflections (Sub w)) (None, 0)).

(** [UPatternLightingBlueprintLibrary::CalculateFresnelReflection] *)
Definition CalculateFresnelReflection (ViewDir Normal : FVector) (IOR : R) : R :=
  let CosI := Rabs (DotProduct ViewDir Normal) in
  let F0 := FMath.Square ((1 - IOR) / (1 + IOR)) in
  F0 + (1 - F0) * FMath.Pow (1 - CosI) 5.

(** [UPatternLightingBlueprintLibrary::GetShadowSoftness] *)
Definition GetShadowSoftness (LightRadius Distance : R) : R :=
  FMath.Clamp (LightRadius / (Distance + 1)) 0 1.

(** [UPatternLightingBlueprintLibrary::LerpPatterns]; [EvaluatePattern] is
    called with its default speed [1.0f]. *)
Definition LerpPatterns (PatternA PatternB : ELightPattern) (Time Alpha : R) : R :=
  let ValueA := BlueprintLibrary.EvaluatePattern PatternA Time 1 in
  let ValueB := BlueprintLibrary.EvaluatePattern PatternB Time 1 in
  FMath.Lerp ValueA ValueB Alpha.

(** [UPatternLightingBlueprintLibrary::ColorTemperatureToRGB];
    [FMath::Loge] is the natural logarithm, [FMath::Pow] with a fractional
    exponent the real power, and the three-argument colour constructor
    sets alpha to 1. *)
Definition ColorTemperatureToRGB (Kelvin : R) : FLinearColor :=
  let Temp := Kelvin / 100 in
  let '(R_, G_, B_) :=
    if Rle_dec Temp 66 then
      (255,
       99.4708025861 * ln Temp - 161.1195681661,
       if Rle_dec Temp 19 then 0
       else 138.5177312231 * ln (Temp - 10) - 305.0447927307)
    else
      (329.698727446 * Rpower (Temp - 60) (-0.1332047592),
       288.1221695283 * Rpower (Temp - 60) (-0.0755148492),
       255) in
  {| cR := FMath.Clamp (R_ / 255) 0 1;
     cG := FMath.Clamp (G_ / 255) 0 1;
     cB := FMath.Clamp (B_ / 255) 0 1;
     cA := 1 |}.

(** [UPatternLightingBlueprintLibrary::LuxToIntensity] *)
Definition LuxToIntensity (Lux : R) : R := Lux * 0.08.

(** ** Auxiliary definitions for the further properties *)

(** A run of subsystem ticks, one per delta time. *)
Definition TickAll (DeltaTimes : list R) (w : World) : World :=
  fold_left (fun acc dt => Subsystem.Tick dt acc) DeltaTimes w.

(** The weight [GetBestReflectionAt] gives a probe, when the probe is live
    and the query point is strictly within its radius. *)
Definition ProbeWeight (Location : FVector) (w : World) (h : nat) : option R :=
  match ReflectionHeap w !! h with
  | Some Reflection =>
      if Rlt_dec (Dist Location (ReflectionLocation Reflection))
           (ReflectionRadius Reflection)
      then Some (ReflectionIntensity Reflection
                 * (1 - Dist Location (ReflectionLocation Reflection)
                        / ReflectionRadius Reflection))
      else None
  | None => None
  end.

(** "The light under handle [h] is live and within [Radius] plus its own
    radius of the point". *)
Definition NearLightb (Location : FVector) (Radius : R) (w : World) (h : nat) : bool :=
  match LightHeap w !! h with
  | Some L =>
      if Rle_dec (Dist Location (ComponentLocation L)) (Radius + LightRadius L)
      then true else false
  | None => false
  end.

(** "The point is strictly within [Radius] of the light". *)
Definition FlashReachesb (Location : FVector) (Radius : R)
    (L : UPatternLightComponent) : bool :=
  if Rlt_dec (Dist Location (ComponentLocation L)) Radius then true else false.

(** What [TriggerFlashAtLocation] does to a light it reaches. *)
Definition FlashedAt (Location : FVector) (Radius Duration Intensity : R)
    (L : UPatternLightComponent) : UPatternLightComponent :=
  Light.TriggerFlash Duration
    (Intensity * (1 - Dist Location (ComponentLocation L) / Radius)) L.

(** Every field that [SyncWith] does not write. *)
Definition SameButPhase (L L' : UPatternLightComponent) : Prop :=
  Pattern (PatternSettings L') = Pattern (PatternSettings L) /\
  Speed (PatternSettings L') = Speed (PatternSettings L) /\
  MinIntensity (PatternSettings L') = MinIntensity (PatternSettings L) /\
  MaxIntensity (PatternSettings L') = MaxIntensity (PatternSettings L) /\
  CustomCurve (PatternSettings L') = CustomCurve (PatternSettings L) /\
  bEnableColorShift (PatternSettings L') = bEnableColorShift (PatternSettings L) /\
  ColorCurve (PatternSettings L') = ColorCurve (PatternSettings L) /\
  BaseColor L' = BaseColor L /\ BaseIntensity L' = BaseIntensity L /\
  LightRadius L' = LightRadius L /\
  bCastPatternShadows L' = bCastPatternShadows L /\
  SyncGroup L' = SyncGroup L /\
  FlashTimer L' = FlashTimer L /\
  FlashIntensityMultiplier L' = FlashIntensityMultiplier L /\
  ComponentLocation L' = ComponentLocation L /\
  Intensity L' = Intensity L /\ LightColor L' = LightColor L /\
  CastShadows L' = CastShadows L.

(** A probe at the origin with the given intensity and radius. *)
Definition Probe (i r : R) : UPatternReflectionComponent :=
  {| ReflectionLocation := Origin; ReflectionIntensity := i; ReflectionRadius := r |}.

(** Two probes at the origin, registered in handle order. *)
Definition TwoProbeWorld : World :=
  {| Sub := Subsystem.with_registries DefaultSubsystem [] [0%nat; 1%nat] ∅;
     LightHeap := ∅;
     ReflectionHeap := <[ 1%nat := Probe 2 100 ]> {[ 0%nat := Probe 1 100 ]};
     CleanupTimer := 0 |}.

(** The world after the two clock updates of a running [Tick], before the
    cleanup test. *)
Definition ClocksAdvanced (DeltaTime : R) (w : World) : World :=
  Subsystem.with_cleanup_timer
    (Subsystem.with_sub w
       (Subsystem.with_master_time (Sub w)
          (MasterTime (Sub w) + DeltaTime * GlobalSpeed (GlobalConfig (Sub w)))))
    (CleanupTimer w + DeltaTime).

(** The loop invariant of [GetBestReflectionAt]: [acc] is the best probe
    among the handles [seen] so far, if one has a positive weight. *)
Definition BestAmong (Location : FVector) (w : World) (seen : list nat)
    (acc : option nat * R) : Prop :=
  match fst acc with
  | None =>
      snd acc = 0 /\
      (forall h y, h ∈ seen -> ProbeWeight Location w h = Some y -> y <= 0)
  | Some b =>
      b ∈ seen /\ ProbeWeight Location w b = Some (snd acc) /\ snd acc > 0 /\
      (forall h y, h ∈ seen -> ProbeWeight Location w h = Some y -> y <= snd acc)
  end.

(** [UPatternLightComponent::BeginPlay]; [FRand] is the value that
    [FMath::FRand()] returns if it is called. *)
Definition BeginPlay (FRand : R) (L : UPatternLightComponent) : UPatternLightComponent :=
  let s := PatternSettings L in
  let s' :=
    if bool_decide (SyncGroup L = NAME_None) then
      if Req_dec_T (PhaseOffset s) 0 then
        {| Pattern := Pattern s; Speed := Speed s; PhaseOffset := FRand;
           MinIntensity := MinIntensity s; MaxIntensity := MaxIntensity s;
           CustomCurve := CustomCurve s; bEnableColorShift := bEnableColorShift s;
           ColorCurve := ColorCurve s |}
      else s
    else s in
  Light.with_time (Light.with_settings L s') (PhaseOffset s').
(** * Properties *)

(** ** The flash overlay *)

Section Flash.

Import Light.

Lemma TickComponent_FlashTimer dt L :
  FlashTimer (TickComponent dt L) =
  if Rgt_dec (FlashTimer L) 0 then FlashTimer L - dt else FlashTimer L.
Proof.
  unfold TickComponent, UpdateLightProperties; simpl.
  destruct (Rgt_dec (FlashTimer L) 0); [destruct (Rle_dec _ 0)|]; reflexivity.
Qed.

Lemma TickComponent_Multiplier dt L :
  FlashIntensityMultiplier (TickComponent dt L) =
  if Rgt_dec (FlashTimer L) 0 then
    if Rle_dec (FlashTimer L - dt) 0 then 1 else FlashIntensityMultiplier L
  else FlashIntensityMultiplier L.
Proof.
  unfold TickComponent, UpdateLightProperties; simpl.
  destruct (Rgt_dec (FlashTimer L) 0); [destruct (Rle_dec _ 0)|]; reflexivity.
Qed.

Lemma TickComponent_CurrentTime dt L :
  CurrentTime (TickComponent dt L) =
  CurrentTime L + dt * Speed (PatternSettings L).
Proof.
  unfold TickComponent, UpdateLightProperties; simpl.
  destruct (Rgt_dec (FlashTimer L) 0); [destruct (Rle_dec _ 0)|]; reflexivity.
Qed.

Lemma TickComponent_PatternSettings dt L :
  PatternSettings (TickComponent dt L) = PatternSettings L.
Proof.
  unfold TickComponent, UpdateLightProperties; simpl.
  destruct (Rgt_dec (FlashTimer L) 0); [destruct (Rle_dec _ 0)|]; reflexivity.
Qed.

Lemma TickMany_cons dt dts L :
  TickMany (dt :: dts) L = TickMany dts (TickComponent dt L).
Proof. reflexivity. Qed.

(** Once the timer is not positive, ticking changes neither the timer nor
    the multiplier, whatever the delta times are. *)
Lemma expired_flash_is_stable dts :
  forall L, FlashTimer L <= 0 ->
    FlashTimer (TickMany dts L) = FlashTimer L /\
    FlashIntensityMultiplier (TickMany dts L) = FlashIntensityMultiplier L.
Proof.
  induction dts as [|dt dts IH]; intros L HL; [split; reflexivity|].
  rewrite TickMany_cons.
  assert (Ht : FlashTimer (TickComponent dt L) = FlashTimer L).
  { rewrite TickComponent_FlashTimer. destruct (Rgt_dec _ 0); [lra|reflexivity]. }
  assert (Hm : FlashIntensityMultiplier (TickComponent dt L) = FlashIntensityMultiplier L).
  { rewrite TickComponent_Multiplier. destruct (Rgt_dec _ 0); [lra|reflexivity]. }
  destruct (IH (TickComponent dt L)) as [IH1 IH2]; [lra|].
  rewrite IH1, IH2, Ht, Hm. split; reflexivity.
Qed.

(** A running flash, ticked with non-negative delta times: it keeps its
    multiplier as long as the elapsed time is below the timer, and has
    multiplier [1] as soon as the elapsed time reaches it. *)
Lemma running_flash dts :
  forall L, Forall (fun dt => 0 <= dt) dts -> FlashTimer L > 0 ->
    (Elapsed dts < FlashTimer L ->
       FlashIntensityMultiplier (TickMany dts L) = FlashIntensityMultiplier L /\
       FlashTimer (TickMany dts L) = FlashTimer L - Elapsed dts) /\
    (FlashTimer L <= Elapsed dts ->
       FlashIntensityMultiplier (TickMany dts L) = 1).
Proof.
  induction dts as [|dt dts IH]; intros L Hpos HL; simpl.
  - split; [intros _; split; [reflexivity|lra] | intros; lra].
  - inversion Hpos as [|? ? Hdt Hrest]; subst.
    change (Light.TickMany (dt :: dts) L) with (TickMany dts (TickComponent dt L)).
    pose proof (TickComponent_FlashTimer dt L) as Ht.
    pose proof (TickComponent_Multiplier dt L) as Hm.
    destruct (Rgt_dec (FlashTimer L) 0) as [_|]; [|lra].
    destruct (Rle_dec (FlashTimer L - dt) 0) as [Hx|Hx].
    + (* the timer expires in this frame *)
      destruct (expired_flash_is_stable dts (TickComponent dt L)) as [_ E]; [lra|].
      assert (0 <= Elapsed dts).
      { clear -Hrest. induction Hrest; simpl; lra. }
      split; [intros; lra | intros _; rewrite E, Hm; reflexivity].
    + destruct (IH (TickComponent dt L) Hrest) as [IH1 IH2]; [lra|].
      rewrite Ht, Hm in *.
      split; intros Hs.
      * destruct IH1 as [A B]; [lra|]. rewrite A, B. split; [reflexivity|lra].
      * apply IH2. lra.
Qed.

End Flash.

(** C6.  [TriggerFlash(duration, multiplier)] stores both arguments; a
    tick that starts with a positive timer subtracts the delta time from it
    and resets the multiplier to 1 exactly when the new timer is not
    positive; after [TriggerFlash(0.1, 10)] the multiplier is still 10
    while less than 0.1 has elapsed (in particular after one tick of 0.05)
    and is 1 once 0.1 or more has elapsed; a second trigger overwrites the
    first. *)
Theorem flash_overlay (L : UPatternLightComponent) (Duration Multiplier : R) :
  FlashTimer (Light.TriggerFlash Duration Multiplier L) = Duration /\
  FlashIntensityMultiplier (Light.TriggerFlash Duration Multiplier L) = Multiplier /\
  (forall dt, FlashTimer L > 0 ->
     FlashTimer (Light.TickComponent dt L) = FlashTimer L - dt /\
     (FlashTimer L - dt <= 0 ->
        FlashIntensityMultiplier (Light.TickComponent dt L) = 1) /\
     (FlashTimer L - dt > 0 ->
        FlashIntensityMultiplier (Light.TickComponent dt L) = FlashIntensityMultiplier L)) /\
  FlashIntensityMultiplier (Light.TickMany [0.05] (Light.TriggerFlash 0.1 10 L)) = 10 /\
  (forall dts, Forall (fun dt => 0 <= dt) dts ->
     (Elapsed dts < 0.1 ->
        FlashIntensityMultiplier (Light.TickMany dts (Light.TriggerFlash 0.1 10 L)) = 10) /\
     (0.1 <= Elapsed dts ->
        FlashIntensityMultiplier (Light.TickMany dts (Light.TriggerFlash 0.1 10 L)) = 1)) /\
  (forall d' m',
     Light.TriggerFlash d' m' (Light.TriggerFlash Duration Multiplier L) =
     Light.TriggerFlash d' m' L).
Proof.
  assert (Hgen : forall dts, Forall (fun dt => 0 <= dt) dts ->
     (Elapsed dts < 0.1 ->
        FlashIntensityMultiplier (Light.TickMany dts (Light.TriggerFlash 0.1 10 L)) = 10) /\
     (0.1 <= Elapsed dts ->
        FlashIntensityMultiplier (Light.TickMany dts (Light.TriggerFlash 0.1 10 L)) = 1)).
  { intros dts Hdts.
    destruct (running_flash dts (Light.TriggerFlash 0.1 10 L) Hdts) as [A B];
      [simpl; lra|].
    split; intros H.
    - destruct A as [A _]; [simpl; lra | exact A].
    - apply B. simpl. lra. }
  repeat split.
  - rewrite TickComponent_FlashTimer. destruct (Rgt_dec _ 0); [reflexivity|lra].
  - intros Hle. rewrite TickComponent_Multiplier.
    destruct (Rgt_dec _ 0); [|lra]. destruct (Rle_dec _ 0); [reflexivity|lra].
  - intros Hgt. rewrite TickComponent_Multiplier.
    destruct (Rgt_dec _ 0); [|lra]. destruct (Rle_dec _ 0); [lra|reflexivity].
  - apply (Hgen [0.05]); [repeat constructor; lra | simpl; lra].
  - apply Hgen; assumption.
  - apply Hgen; assumption.
Qed.

Lemma flash_overlay_witness :
  FlashTimer (Light.TickComponent 0.05 (Light.TriggerFlash 0.1 10 DefaultLight)) = 0.1 - 0.05 /\
  FlashIntensityMultiplier
    (Light.TickMany [0.05; 0.06] (Light.TriggerFlash 0.1 10 DefaultLight)) = 1.
Proof.
  split.
  - destruct (flash_overlay (Light.TriggerFlash 0.1 10 DefaultLight) 0.1 10)
      as (_ & _ & Htick & _).
    destruct (Htick 0.05) as [Ht _]; [simpl; lra | exact Ht].
  - destruct (flash_overlay DefaultLight 0.1 10) as (_ & _ & _ & _ & Hrun & _).
    destruct (Hrun [0.05; 0.06]) as [_ Hreset]; [repeat constructor; lra|].
    apply Hreset. simpl. lra.
Defined.

(** C10.  After [TriggerFlash(duration, m)] with [duration <= 0], no
    sequence of ticks, whatever its delta times, changes the multiplier
    [m] (or the timer); only another [TriggerFlash] replaces it. *)
Theorem nonpositive_flash_persists
    (L : UPatternLightComponent) (Duration m : R) (dts : list R) :
  Duration <= 0 ->
  FlashIntensityMultiplier (Light.TickMany dts (Light.TriggerFlash Duration m L)) = m /\
  FlashTimer (Light.TickMany dts (Light.TriggerFlash Duration m L)) = Duration /\
  (forall d' m',
     FlashIntensityMultiplier
       (Light.TriggerFlash d' m' (Light.TickMany dts (Light.TriggerFlash Duration m L))) = m').
Proof.
  intros Hd.
  destruct (expired_flash_is_stable dts (Light.TriggerFlash Duration m L)) as [A B];
    [simpl; lra|].
  rewrite A, B. repeat split.
Qed.

Lemma nonpositive_flash_persists_witness :
  0 <= 0 /\
  FlashIntensityMultiplier (Light.TickMany [1; 2; 0.5] (Light.TriggerFlash 0 10 DefaultLight)) = 10.
Proof.
  split; [lra|].
  apply (nonpositive_flash_persists DefaultLight 0 10 [1; 2; 0.5]). lra.
Defined.

(** ** Clamping setters *)

Lemma Clamp_spec (v lo hi : R) : lo <= hi -> ClampedInto lo hi v (FMath.Clamp v lo hi).
Proof.
  intros Hle. unfold ClampedInto, FMath.Clamp.
  destruct (Rlt_dec v lo); [|destruct (Rlt_dec v hi)]; repeat split; intros; lra.
Qed.

Lemma RunSetter_keeps_ranges (w : World) (c : SetterCall) :
  InDocumentedRanges w -> InDocumentedRanges (RunSetter w c).
Proof.
  intros (Hi & Hs & Hl). destruct c as [v|v|h v]; simpl.
  - split; [|split; assumption].
    apply (Clamp_spec v 0 2). lra.
  - split; [assumption|split; [|assumption]].
    apply (Clamp_spec v 0.1 5). lra.
  - split; [assumption|split; [assumption|]].
    intros k L. unfold SetPatternSpeedAt; simpl.
    destruct (decide (h = k)) as [->|Hne].
    + rewrite lookup_alter_eq. destruct (LightHeap w !! k) as [L0|] eqn:E; simpl; [|discriminate].
      intros [= <-]. simpl. apply (Clamp_spec v 0.01 10). lra.
    + rewrite lookup_alter_ne by assumption. apply Hl.
Qed.

(** C9.  For every input, [SetGlobalIntensity] stores the argument clamped
    into [[0, 2]], [SetGlobalSpeed] into [[0.1, 5]] and [SetPatternSpeed]
    into [[0.01, 10]] (a value in range is stored as it is, a value below
    becomes the lower bound, a value above the upper bound; no call is
    rejected), and the documented ranges of the three fields are kept by
    every sequence of setter calls. *)
Theorem setters_clamp :
  (forall v w, ClampedInto 0 2 v
     (GlobalIntensity (GlobalConfig (Sub (Subsystem.SetGlobalIntensity v w))))) /\
  (forall v w, ClampedInto 0.1 5 v
     (GlobalSpeed (GlobalConfig (Sub (Subsystem.SetGlobalSpeed v w))))) /\
  (forall v L, ClampedInto 0.01 10 v
     (Speed (PatternSettings (Light.SetPatternSpeed v L)))) /\
  (forall calls w, InDocumentedRanges w -> InDocumentedRanges (RunSetters calls w)).
Proof.
  repeat apply conj.
  - intros v w. apply (Clamp_spec v 0 2). lra.
  - intros v w. apply (Clamp_spec v 0.1 5). lra.
  - intros v L. apply (Clamp_spec v 0.01 10). lra.
  - intros calls. unfold RunSetters.
    induction calls as [|c calls IH]; intros w Hw; simpl; [assumption|].
    apply IH, RunSetter_keeps_ranges, Hw.
Qed.

Lemma DefaultWorld_in_ranges : InDocumentedRanges (OneLightWorld DefaultLight).
Proof.
  unfold InDocumentedRanges; simpl. repeat split; try lra.
  - apply lookup_singleton_Some in H as [_ <-]. simpl. lra.
  - apply lookup_singleton_Some in H as [_ <-]. simpl. lra.
Qed.

Lemma setters_clamp_witness :
  InDocumentedRanges
    (RunSetters [CallSetGlobalIntensity 7; CallSetGlobalSpeed (-3);
                 CallSetPatternSpeed 0 100; CallSetGlobalSpeed 2]
       (OneLightWorld DefaultLight)).
Proof.
  destruct setters_clamp as (_ & _ & _ & Hseq).
  apply Hseq, DefaultWorld_in_ranges.
Defined.

(** ** The pattern evaluator *)

Lemma PI_bounds : 3.14 < PI < 3.15.
Proof.
  pose proof (PI_2_3_7_ineq 1) as H.
  unfold PI_2_3_7_tg, tg_alt, Ratan_seq in H. simpl in H. lra.
Qed.

(** Sign of the sine between two consecutive multiples of [PI]. *)
Lemma sin_pos_even (x : R) (k : nat) :
  2 * INR k * PI < x < 2 * INR k * PI + PI -> 0 < sin x.
Proof.
  intros Hx. replace x with ((x - 2 * INR k * PI) + 2 * INR k * PI) by ring.
  rewrite sin_period. apply sin_gt_0; lra.
Qed.

Lemma sin_neg_odd (x : R) (k : nat) :
  2 * INR k * PI + PI < x < 2 * INR k * PI + 2 * PI -> sin x < 0.
Proof.
  intros Hx.
  replace x with ((x - PI - 2 * INR k * PI) + 2 * INR k * PI + PI) by ring.
  rewrite neg_sin, sin_period.
  assert (0 < sin (x - PI - 2 * INR k * PI)) by (apply sin_gt_0; lra). lra.
Qed.

Lemma sin_240_pos : 0 < sin 240.
Proof. pose proof PI_bounds. apply (sin_pos_even 240 38). simpl. lra. Qed.

Lemma sin_8_pos : 0 < sin 8.
Proof. pose proof PI_bounds. apply (sin_pos_even 8 1). simpl. lra. Qed.

Lemma sin_4_3_neg : sin 4.3 < 0.
Proof. pose proof PI_bounds. apply (sin_neg_odd 4.3 0). simpl. lra. Qed.

Lemma sin_2_1_lt_1 : sin 2.1 < 1.
Proof.
  pose proof PI_bounds. rewrite <- sin_PI_x, <- sin_PI2.
  apply sin_increasing_1; lra.
Qed.

Lemma Int_part_small (x : R) : 0 <= x < 1 -> Int_part x = 0%Z.
Proof.
  intros Hx. unfold Int_part.
  rewrite <- (up_tech x 0); [reflexivity | lra | change (IZR (0 + 1)) with 1; lra].
Qed.

Lemma Fmod_small (x y : R) : 0 <= x < y -> 1 / 100000000 < y -> FMath.Fmod x y = x.
Proof.
  intros Hx Hy. unfold FMath.Fmod, FMath.Trunc.
  destruct (Rle_dec (Rabs y) _) as [Ha|_].
  { rewrite Rabs_pos_eq in Ha; lra. }
  assert (Hq : 0 <= x / y < 1).
  { split.
    - apply Rmult_le_pos; [lra|]. apply Rlt_le, Rinv_0_lt_compat. lra.
    - apply (Rmult_lt_reg_r y); [lra|]. unfold Rdiv.
      rewrite Rmult_assoc, Rinv_l by lra. lra. }
  destruct (Rle_dec 0 (x / y)); [|lra].
  rewrite Int_part_small by assumption. simpl. lra.
Qed.

Lemma unit_pow (x : R) (n : nat) : 0 <= x <= 1 -> 0 <= x ^ n <= 1.
Proof.
  intros Hx. induction n as [|n IH]; simpl; [lra|]. nra.
Qed.

Lemma sin_pow_12 (a : R) : 0 <= sin a ^ 12 <= 1.
Proof.
  pose proof (SIN_bound a) as Hs.
  change 12%nat with (2 * 6)%nat. rewrite pow_mult.
  apply unit_pow. simpl. nra.
Qed.

Lemma sin_prod2 (a b : R) : -1 <= sin a * sin b <= 1.
Proof. pose proof (SIN_bound a). pose proof (SIN_bound b). nra. Qed.

Lemma sin_prod3 (a b c : R) : -1 <= sin a * sin b * sin c <= 1.
Proof. pose proof (sin_prod2 a b). pose proof (SIN_bound c). nra. Qed.

Lemma Clamp_unit (v : R) : 0 <= FMath.Clamp v 0 1 <= 1.
Proof. apply (Clamp_spec v 0 1). lra. Qed.

(** The raw value of every kind but [Fluorescent] and [Custom] with a
    curve is in [[0, 1]]. *)
Lemma RawPattern_unit (L : UPatternLightComponent) (T : R) :
  Pattern (PatternSettings L) <> Fluorescent ->
  (Pattern (PatternSettings L) = Custom -> CustomCurve (PatternSettings L) = None) ->
  0 <= Light.RawPattern L T <= 1.
Proof.
  intros Hf Hc. unfold Light.RawPattern, FMath.Sin, FMath.Pow, FMath.Max.
  destruct (Pattern (PatternSettings L)) eqn:E.
  - lra.
  - pose proof (SIN_bound (T * 2 * PI)). lra.
  - pose proof (sin_prod2 (T * 20) (T * 7.3)). lra.
  - destruct (Rgt_dec _ 0); lra.
  - pose proof (sin_prod3 (T * 12) (T * 5.7) (T * 3.1)). simpl. lra.
  - congruence.
  - apply unit_pow. pose proof (SIN_bound (T * 0.5)). destruct (Rlt_dec _ _); lra.
  - pose proof (sin_prod3 (T * 8) (T * 4.3) (T * 2.1)). lra.
  - destruct (Rgt_dec _ 0); lra.
  - pose proof (sin_prod2 (X (ComponentLocation L) * 0.01 + T)
                  (Y (ComponentLocation L) * 0.01 + T * 0.7)). simpl. lra.
  - pose proof (sin_pow_12 (T * 2.5)). pose proof (sin_pow_12 (T * 2.5 + 0.3)).
    simpl. destruct (Rlt_dec _ _); lra.
  - pose proof (SIN_bound (T * 0.5)). lra.
  - rewrite Hc by reflexivity. lra.
Qed.

Lemma RawPattern_Fluorescent (L : UPatternLightComponent) (T : R) :
  Pattern (PatternSettings L) = Fluorescent ->
  0 <= Light.RawPattern L T <= 1.05.
Proof.
  intros E. unfold Light.RawPattern, FMath.Sin. rewrite E. simpl.
  pose proof (Clamp_unit (FMath.Fmod T 5 / 2)).
  pose proof (SIN_bound (T * 120)). nra.
Qed.

Lemma Lerp_between (A B a : R) :
  0 <= a <= 1 -> Rmin A B <= FMath.Lerp A B a <= Rmax A B.
Proof.
  intros Ha. unfold FMath.Lerp, Rmin, Rmax. destruct (Rle_dec A B); nra.
Qed.

Lemma Fluorescent_at_2 :
  Light.RawPattern (LightWith Fluorescent 0 1 None) 2 = 1 + 0.05 * sin 240.
Proof.
  unfold Light.RawPattern, FMath.Sin. simpl.
  rewrite Fmod_small by lra.
  unfold FMath.Clamp.
  destruct (Rlt_dec (2 / 2) 0); [lra|]. destruct (Rlt_dec (2 / 2) 1); [lra|].
  replace (2 * 120) with 240 by lra. lra.
Qed.

Lemma Max_is_Rmax (A B : R) : FMath.Max A B = Rmax A B.
Proof.
  unfold FMath.Max, Rmax. destruct (Rlt_dec B A), (Rle_dec A B); lra.
Qed.

(** The component's evaluator computes the table of the specification,
    except for [Custom] without a curve. *)
Lemma RawPattern_refines_table (L : UPatternLightComponent) (T : R) :
  (Pattern (PatternSettings L) = Custom -> CustomCurve (PatternSettings L) <> None) ->
  Light.RawPattern L T =
  SpecTable (Pattern (PatternSettings L))
    (Some (X (ComponentLocation L), Y (ComponentLocation L)))
    (CustomCurve (PatternSettings L)) T.
Proof.
  intros Hc. unfold Light.RawPattern, SpecTable, FMath.Sin, FMath.Pow.
  destruct (Pattern (PatternSettings L)); cbv zeta.
  - reflexivity.
  - replace (T * 2 * PI) with (2 * PI * T) by ring. reflexivity.
  - rewrite (Rmult_comm T 20), (Rmult_comm T 7.3). reflexivity.
  - rewrite (Rmult_comm T 10). reflexivity.
  - rewrite (Rmult_comm T 12), (Rmult_comm T 5.7), (Rmult_comm T 3.1). ring.
  - rewrite (Rmult_comm T 120). reflexivity.
  - rewrite Max_is_Rmax, (Rmult_comm T 0.5). reflexivity.
  - rewrite (Rmult_comm T 8), (Rmult_comm T 4.3), (Rmult_comm T 2.1). reflexivity.
  - rewrite (Rmult_comm T 4). reflexivity.
  - rewrite (Rmult_comm (X (ComponentLocation L)) 0.01),
      (Rmult_comm (Y (ComponentLocation L)) 0.01), (Rmult_comm T 0.7). ring.
  - rewrite Max_is_Rmax, (Rmult_comm T 2.5), (Rmult_comm _ 0.5). reflexivity.
  - rewrite (Rmult_comm T 0.5), (Rmult_comm _ 0.5). reflexivity.
  - destruct (CustomCurve (PatternSettings L)); [reflexivity|].
    exfalso. apply Hc; reflexivity.
Qed.

(** The standalone evaluator computes the table for six kinds. *)
Lemma library_agrees_on_six (kind : ELightPattern) (Time Speed : R) :
  In kind [Steady; Pulse; Flicker; Strobe; Candle; Alarm] ->
  BlueprintLibrary.EvaluatePattern kind Time Speed =
  SpecTable kind None None (Time * Speed).
Proof.
  intros Hin. unfold BlueprintLibrary.EvaluatePattern, SpecTable, FMath.Sin.
  simpl in Hin.
  destruct Hin as [<-|[<-|[<-|[<-|[<-|[<-|[]]]]]]]; cbv zeta;
    repeat match goal with
      | |- context [sin (Time * Speed * ?c)] =>
          replace (Time * Speed * c) with (c * (Time * Speed)) by ring
      end;
    try reflexivity.
  replace (Time * Speed * 2 * PI) with (2 * PI * (Time * Speed)) by ring.
  reflexivity.
Qed.

(** Its [default] branch answers [1] for six other kinds. *)
Lemma library_default_branch (kind : ELightPattern) (Time Speed : R) :
  In kind [Fluorescent; Lightning; Underwater; Heartbeat; Breathing; Custom] ->
  BlueprintLibrary.EvaluatePattern kind Time Speed = 1.
Proof.
  simpl. intros [<-|[<-|[<-|[<-|[<-|[<-|[]]]]]]]; reflexivity.
Qed.

(** C2.  At [Fire], time 1, speed 1, the standalone evaluator returns
    [0.7 + 0.3 sin 8 sin 4.3]: the factor [sin (2.1 t)] of the table, which
    the component's evaluator has, is missing, and the two values differ. *)
Theorem library_Fire_drops_a_factor :
  BlueprintLibrary.EvaluatePattern Fire 1 1 = 0.7 + 0.3 * sin 8 * sin 4.3 /\
  SpecTable Fire None None (1 * 1) = 0.7 + 0.3 * sin 8 * sin 4.3 * sin 2.1 /\
  Light.RawPattern (LightWith Fire 0 1 None) (1 * 1) = SpecTable Fire None None (1 * 1) /\
  BlueprintLibrary.EvaluatePattern Fire 1 1 <> SpecTable Fire None None (1 * 1).
Proof.
  assert (E1 : BlueprintLibrary.EvaluatePattern Fire 1 1 = 0.7 + 0.3 * sin 8 * sin 4.3).
  { unfold BlueprintLibrary.EvaluatePattern, FMath.Sin. cbv zeta.
    replace (1 * 1 * 8) with 8 by lra. replace (1 * 1 * 4.3) with 4.3 by lra.
    reflexivity. }
  assert (E2 : SpecTable Fire None None (1 * 1) = 0.7 + 0.3 * sin 8 * sin 4.3 * sin 2.1).
  { unfold SpecTable.
    replace (8 * (1 * 1)) with 8 by lra. replace (4.3 * (1 * 1)) with 4.3 by lra.
    replace (2.1 * (1 * 1)) with 2.1 by lra. reflexivity. }
  repeat apply conj; [exact E1 | exact E2 | |].
  - rewrite RawPattern_refines_table; [reflexivity | discriminate].
  - rewrite E1, E2.
    pose proof sin_8_pos. pose proof sin_4_3_neg. pose proof sin_2_1_lt_1.
    assert (sin 8 * sin 4.3 < 0) by nra. nra.
Qed.

(** C3, counterexample.  [Fluorescent] with range [[0, 1]] at time 2
    evaluates to [1 + 0.05 sin 240], above both endpoints. *)
Lemma evaluate_within_range_counterexample :
  let L := LightWith Fluorescent 0 1 None in
  ~ (Rmin (MinIntensity (PatternSettings L)) (MaxIntensity (PatternSettings L))
       <= Light.EvaluatePattern L 2
       <= Rmax (MinIntensity (PatternSettings L)) (MaxIntensity (PatternSettings L))).
Proof.
  intros L. unfold Light.EvaluatePattern, FMath.Lerp. subst L.
  rewrite Fluorescent_at_2. simpl.
  pose proof sin_240_pos. unfold Rmin, Rmax.
  destruct (Rle_dec 0 1); lra.
Qed.

(** C3, amended.  [EvaluatePattern] is the interpolation of the raw value
    between [MinIntensity] and [MaxIntensity]; whenever the raw value is in
    [[0, 1]] the result lies between the two endpoints, in either order;
    the raw value is in [[0, 1]] for every kind except [Fluorescent], where
    it is in [[0, 1.05]], and [Custom] with a curve, where it is what the
    curve returns. *)
Theorem evaluate_within_range (L : UPatternLightComponent) (T : R) :
  let lo := MinIntensity (PatternSettings L) in
  let hi := MaxIntensity (PatternSettings L) in
  Light.EvaluatePattern L T = FMath.Lerp lo hi (Light.RawPattern L T) /\
  (0 <= Light.RawPattern L T <= 1 ->
     Rmin lo hi <= Light.EvaluatePattern L T <= Rmax lo hi) /\
  (Pattern (PatternSettings L) <> Fluorescent ->
   (Pattern (PatternSettings L) = Custom -> CustomCurve (PatternSettings L) = None) ->
     Rmin lo hi <= Light.EvaluatePattern L T <= Rmax lo hi) /\
  (Pattern (PatternSettings L) = Fluorescent -> 0 <= Light.RawPattern L T <= 1.05).
Proof.
  intros lo hi. repeat apply conj.
  - reflexivity.
  - intros Hraw. apply Lerp_between, Hraw.
  - intros Hf Hc. apply Lerp_between, RawPattern_unit; assumption.
  - apply RawPattern_Fluorescent.
Qed.

Lemma evaluate_within_range_witness :
  Rmin 1 0 <= Light.EvaluatePattern (LightWith Pulse 1 0 None) 0.25 <= Rmax 1 0.
Proof.
  destruct (evaluate_within_range (LightWith Pulse 1 0 None) 0.25) as (_ & _ & H & _).
  apply H; simpl; discriminate.
Defined.

(** C8, counterexample.  [Custom] without a curve, range [[0, 1]]: the raw
    value is not 0 and the result is not [MinIntensity]. *)
Lemma custom_without_curve_counterexample :
  let L := LightWith Custom 0 1 None in
  Light.RawPattern L 0 <> 0 /\
  Light.EvaluatePattern L 0 <> MinIntensity (PatternSettings L).
Proof.
  unfold Light.EvaluatePattern, Light.RawPattern, FMath.Lerp. simpl. split; lra.
Qed.

(** C8, amended.  For every time, [Custom] without a curve has raw value 1
    (the initial value of [Value]), so [EvaluatePattern] returns
    [Lerp(MinIntensity, MaxIntensity, 1) = MaxIntensity]. *)
Theorem custom_without_curve (L : UPatternLightComponent) (T : R) :
  Pattern (PatternSettings L) = Custom ->
  CustomCurve (PatternSettings L) = None ->
  Light.RawPattern L T = 1 /\
  Light.EvaluatePattern L T =
    FMath.Lerp (MinIntensity (PatternSettings L)) (MaxIntensity (PatternSettings L)) 1 /\
  Light.EvaluatePattern L T = MaxIntensity (PatternSettings L).
Proof.
  intros Hk Hc.
  assert (E : Light.RawPattern L T = 1).
  { unfold Light.RawPattern. rewrite Hk, Hc. reflexivity. }
  unfold Light.EvaluatePattern. rewrite E. unfold FMath.Lerp.
  repeat split; lra.
Qed.

Lemma custom_without_curve_witness :
  Light.EvaluatePattern (LightWith Custom 0.2 3 None) 7 = 3.
Proof.
  apply (custom_without_curve (LightWith Custom 0.2 3 None) 7); reflexivity.
Defined.

(** ** The subsystem's clock *)

Lemma Tick_keeps_heap (dt : R) (w : World) :
  LightHeap (Subsystem.Tick dt w) = LightHeap w.
Proof.
  unfold Subsystem.Tick.
  destruct (negb _ || _); [reflexivity|].
  destruct (Rgt_dec _ 5); reflexivity.
Qed.

Lemma Tick_MasterTime_running (dt : R) (w : World) :
  Running w ->
  MasterTime (Sub (Subsystem.Tick dt w)) =
  MasterTime (Sub w) + dt * GlobalSpeed (GlobalConfig (Sub w)).
Proof.
  intros [He Hp]. unfold Subsystem.Tick. rewrite He, Hp. simpl.
  destruct (Rgt_dec _ 5); reflexivity.
Qed.

Lemma Tick_not_running (dt : R) (w : World) :
  bEnabled (GlobalConfig (Sub w)) = false \/ bPaused (Sub w) = true ->
  Subsystem.Tick dt w = w.
Proof.
  intros [H|H]; unfold Subsystem.Tick; rewrite H; simpl; [reflexivity|].
  rewrite orb_true_r. reflexivity.
Qed.

(** C1, counterexample.  Global speed 2, one registered default light
    (speed 1, phase time 0), step 1: the claimed phase time is 2; after
    [Tick] it is still 0, and after the whole frame it is 1. *)
Lemma tick_counterexample :
  ~ CompoundedPhaseAdvance Subsystem.Tick /\ ~ CompoundedPhaseAdvance Frame.
Proof.
  assert (Hrun : Running FastWorld) by (split; reflexivity).
  assert (Hreg : 0%nat ∈ RegisteredLights (Sub FastWorld))
    by (simpl; apply list_elem_of_here).
  assert (Hlive : LightHeap FastWorld !! 0%nat = Some DefaultLight)
    by (simpl; apply lookup_singleton_eq).
  assert (Hspeed : GlobalSpeed (GlobalConfig (Sub FastWorld)) = 2).
  { simpl. unfold FMath.Clamp.
    destruct (Rlt_dec 2 0.1); [lra|]. destruct (Rlt_dec 2 5); [reflexivity|lra]. }
  split; intros Hclaim;
    destruct (Hclaim 1 FastWorld 0%nat DefaultLight Hrun Hreg Hlive) as (L' & Hl & Ht);
    rewrite Hspeed in Ht.
  - rewrite Tick_keeps_heap in Hl. rewrite Hlive in Hl.
    injection Hl as <-. simpl in Ht. lra.
  - unfold Frame, Subsystem.with_heap in Hl. cbn [LightHeap] in Hl.
    rewrite lookup_fmap in Hl. rewrite Hlive in Hl. simpl in Hl. injection Hl as <-.
    rewrite TickComponent_CurrentTime in Ht. simpl in Ht. lra.
Qed.

(** C1, amended.  When the subsystem is enabled and not paused, [Tick(dt)]
    advances [MasterTime] by [dt * GlobalSpeed] and changes no light, and
    in the same frame every live light's phase time advances, through the
    light's own [TickComponent(dt)], by [dt * Speed]: the global speed
    does not enter.  When the subsystem is disabled or paused, [Tick]
    changes nothing. *)
Theorem tick_spec (dt : R) (w : World) :
  (Running w ->
     MasterTime (Sub (Subsystem.Tick dt w)) =
       MasterTime (Sub w) + dt * GlobalSpeed (GlobalConfig (Sub w)) /\
     LightHeap (Subsystem.Tick dt w) = LightHeap w /\
     (forall h L, LightHeap w !! h = Some L ->
        exists L', LightHeap (Frame dt w) !! h = Some L' /\
          CurrentTime L' = CurrentTime L + dt * Speed (PatternSettings L))) /\
  (bEnabled (GlobalConfig (Sub w)) = false \/ bPaused (Sub w) = true ->
     Subsystem.Tick dt w = w).
Proof.
  split.
  - intros Hrun. repeat apply conj.
    + apply Tick_MasterTime_running, Hrun.
    + apply Tick_keeps_heap.
    + intros h L Hl. exists (Light.TickComponent dt L). split.
      * unfold Frame. simpl. rewrite lookup_fmap, Hl. reflexivity.
      * apply TickComponent_CurrentTime.
  - apply Tick_not_running.
Qed.

Lemma tick_spec_witness :
  (MasterTime (Sub (Subsystem.Tick 0.5 FastWorld)) =
     0 + 0.5 * GlobalSpeed (GlobalConfig (Sub FastWorld)) /\
   exists L', LightHeap (Frame 0.5 FastWorld) !! 0%nat = Some L' /\
              CurrentTime L' = 0 + 0.5 * 1) /\
  Subsystem.Tick 0.5 (Subsystem.PauseAll (OneLightWorld DefaultLight))
    = Subsystem.PauseAll (OneLightWorld DefaultLight).
Proof.
  split.
  - destruct (tick_spec 0.5 FastWorld) as (H & _).
    destruct H as (Hm & _ & Hl); [split; reflexivity|].
    split; [exact Hm|].
    apply (Hl 0%nat DefaultLight). simpl. apply lookup_singleton_eq.
  - destruct (tick_spec 0.5 (Subsystem.PauseAll (OneLightWorld DefaultLight)))
      as (_ & H).
    apply H. right. reflexivity.
Defined.

(** ** Spatial queries *)

Lemma Dist_self (p : FVector) : Dist p p = 0.
Proof.
  unfold Dist, FMath.Square.
  replace (_ + _ + _) with 0 by ring. apply sqrt_0.
Qed.

Lemma Dist_nonneg (p q : FVector) : 0 <= Dist p q.
Proof. apply sqrt_pos. Qed.

Lemma Dist_At (x : R) : 0 <= x -> Dist (At x) Origin = x.
Proof.
  intros Hx. unfold Dist, FMath.Square, At, Origin. simpl.
  replace (_ + _ + _) with (x * x) by ring. apply sqrt_square, Hx.
Qed.

(** The loop of [GetCombinedIntensityAt] adds, to whatever it starts from,
    the quadratic terms of the live lights in range. *)
Lemma intensity_loop (Location : FVector) (w : World) (hs : list nat) :
  forall acc,
    fold_left (Subsystem.IntensityStep Location w) hs acc =
    acc + Rsum (map (QuadraticTerm Location)
                  (List.filter (InRangeb Location)
                     (omap (fun h => LightHeap w !! h) hs))).
Proof.
  induction hs as [|h hs IH]; intros acc; [simpl; lra|].
  cbn [fold_left]. rewrite IH. clear IH.
  change (omap (fun h => LightHeap w !! h) (h :: hs))
    with (match LightHeap w !! h with
          | Some y => y :: omap (fun h => LightHeap w !! h) hs
          | None => omap (fun h => LightHeap w !! h) hs
          end).
  set (rest := omap (fun h => LightHeap w !! h) hs).
  unfold Subsystem.IntensityStep.
  destruct (LightHeap w !! h) as [L|]; [|reflexivity].
  cbn [List.filter]. set (tail := List.filter (InRangeb Location) rest).
  unfold InRangeb.
  destruct (Rlt_dec (Dist Location (ComponentLocation L)) (LightRadius L));
    [|reflexivity].
  cbn [map Rsum fold_right]. fold (Rsum (map (QuadraticTerm Location) tail)).
  generalize (Rsum (map (QuadraticTerm Location) tail)). intros S.
  unfold QuadraticTerm, FMath.Square. cbv zeta. simpl pow. ring.
Qed.

(** C4.  [GetCombinedIntensityAt] is [GlobalIntensity] times the sum, over
    the live registered lights strictly within their own radius, of
    [currentIntensity * (1 - distance/radius)^2]; in the loop, a live light
    at distance exactly its radius adds nothing, a live light (of positive
    radius) at distance 0 adds its whole current intensity; with no
    registered light the result is 0. *)
Theorem combined_intensity (Location : FVector) (w : World) :
  Subsystem.GetCombinedIntensityAt Location w =
    GlobalIntensity (GlobalConfig (Sub w))
    * Rsum (map (QuadraticTerm Location) (LightsInRange Location w)) /\
  (forall h L acc,
     LightHeap w !! h = Some L ->
     Dist Location (ComponentLocation L) = LightRadius L ->
     Subsystem.IntensityStep Location w acc h = acc) /\
  (forall h L acc,
     LightHeap w !! h = Some L ->
     0 < LightRadius L ->
     Dist Location (ComponentLocation L) = 0 ->
     Subsystem.IntensityStep Location w acc h = acc + Light.GetCurrentIntensity L) /\
  (RegisteredLights (Sub w) = [] -> Subsystem.GetCombinedIntensityAt Location w = 0).
Proof.
  repeat apply conj.
  - unfold Subsystem.GetCombinedIntensityAt, LightsInRange, LiveLights.
    rewrite intensity_loop. ring.
  - intros h L acc Hl Hd. unfold Subsystem.IntensityStep. rewrite Hl, Hd.
    destruct (Rlt_dec _ _); [lra|reflexivity].
  - intros h L acc Hl Hr Hd. unfold Subsystem.IntensityStep. rewrite Hl, Hd.
    destruct (Rlt_dec _ _); [|lra].
    unfold FMath.Square, Rdiv. rewrite Rmult_0_l. ring.
  - intros Hnil. unfold Subsystem.GetCombinedIntensityAt. rewrite Hnil. simpl. ring.
Qed.

Lemma PlainLight_intensity (c : FLinearColor) (i : R) :
  Light.GetCurrentIntensity (PlainLight c i) = i.
Proof.
  unfold Light.GetCurrentIntensity, Light.EvaluatePattern, Light.RawPattern, FMath.Lerp.
  simpl. ring.
Qed.

Lemma combined_intensity_witness :
  let L := PlainLight Color.White 5000 in
  Subsystem.IntensityStep (At 1000) (OneLightWorld L) 0 0%nat = 0 /\
  Subsystem.IntensityStep Origin (OneLightWorld L) 0 0%nat = 0 + 5000 /\
  Subsystem.GetCombinedIntensityAt Origin EmptyWorld = 0.
Proof.
  intros L.
  destruct (combined_intensity (At 1000) (OneLightWorld L)) as (_ & Hedge & _).
  destruct (combined_intensity Origin (OneLightWorld L)) as (_ & _ & Hcentre & _).
  destruct (combined_intensity Origin EmptyWorld) as (_ & _ & _ & Hnone).
  repeat apply conj.
  - apply (Hedge 0%nat L 0); [apply lookup_singleton_eq|].
    apply (Dist_At 1000). lra.
  - rewrite <- (PlainLight_intensity Color.White 5000).
    apply (Hcentre 0%nat L 0); [apply lookup_singleton_eq | simpl; lra | apply Dist_self].
  - apply Hnone. reflexivity.
Defined.

Lemma cR_linear : LinearChannel cR.
Proof. repeat split. Qed.

Lemma cG_linear : LinearChannel cG.
Proof. repeat split. Qed.

Lemma cB_linear : LinearChannel cB.
Proof. repeat split. Qed.

Lemma cA_linear : LinearChannel cA.
Proof. repeat split. Qed.

Lemma color_ext (c d : FLinearColor) :
  cR c = cR d -> cG c = cG d -> cB c = cB d -> cA c = cA d -> c = d.
Proof. destruct c, d; simpl; intros; subst; reflexivity. Qed.

Lemma Rsum_cons (x : R) (l : list R) : Rsum (x :: l) = x + Rsum l.
Proof. reflexivity. Qed.

Lemma ChannelSum_cons (ch : FLinearColor -> R) (Location : FVector)
    (L : UPatternLightComponent) (ls : list UPatternLightComponent) :
  ChannelSum ch Location (L :: ls) =
  ch (Light.GetCurrentColor L) * LinearWeight Location L + ChannelSum ch Location ls.
Proof. reflexivity. Qed.

Lemma ColorStep_eq (Location : FVector) (w : World) (c : FLinearColor) (W : R)
    (h : nat) :
  Subsystem.ColorStep Location w (c, W) h =
  match LightHeap w !! h with
  | Some L =>
      if InRangeb Location L
      then (Color.add c (Color.scale (Light.GetCurrentColor L) (LinearWeight Location L)),
            W + LinearWeight Location L)
      else (c, W)
  | None => (c, W)
  end.
Proof.
  unfold Subsystem.ColorStep, InRangeb.
  destruct (LightHeap w !! h) as [L|]; [|reflexivity].
  destruct (Rlt_dec _ _); reflexivity.
Qed.

(** The loop of [GetCombinedColorAt]: the weight accumulator grows by the
    weights of the live lights in range, every channel of the colour
    accumulator by the weighted channel values. *)
Lemma color_loop (Location : FVector) (w : World) (hs : list nat) :
  forall acc,
    let ls := List.filter (InRangeb Location) (omap (fun h => LightHeap w !! h) hs) in
    let r := fold_left (Subsystem.ColorStep Location w) hs acc in
    snd r = snd acc + Rsum (map (LinearWeight Location) ls) /\
    (forall ch, LinearChannel ch ->
       ch (fst r) = ch (fst acc) + ChannelSum ch Location ls).
Proof.
  induction hs as [|h hs IH]; intros [c W]; cbv zeta in *.
  - simpl. split; [lra | intros; unfold ChannelSum; simpl; lra].
  - cbn [fold_left]. rewrite ColorStep_eq.
    change (omap (fun h => LightHeap w !! h) (h :: hs))
      with (match LightHeap w !! h with
            | Some y => y :: omap (fun h => LightHeap w !! h) hs
            | None => omap (fun h => LightHeap w !! h) hs
            end).
    destruct (LightHeap w !! h) as [L|]; [|apply (IH (c, W))].
    cbn [List.filter].
    destruct (InRangeb Location L); [|apply (IH (c, W))].
    destruct (IH (Color.add c (Color.scale (Light.GetCurrentColor L)
                                 (LinearWeight Location L)),
                  W + LinearWeight Location L)) as [IHw IHc].
    cbn [fst snd] in *. split.
    + rewrite IHw, map_cons, Rsum_cons. lra.
    + intros ch Hch. rewrite (IHc ch Hch). destruct Hch as (Hadd & Hscale & _).
      rewrite Hadd, Hscale, ChannelSum_cons. lra.
Qed.

(** What [GetCombinedColorAt] returns, channel by channel. *)
Lemma combined_color_channels (Location : FVector) (w : World) :
  let ls := LightsInRange Location w in
  let W := Rsum (map (LinearWeight Location) ls) in
  forall ch, LinearChannel ch ->
    (W > 0 ->
       ch (Subsystem.GetCombinedColorAt Location w)
       = (ch Color.Black + ChannelSum ch Location ls) / W) /\
    (~ W > 0 ->
       ch (Subsystem.GetCombinedColorAt Location w)
       = ch Color.Black + ChannelSum ch Location ls).
Proof.
  intros ls W ch Hch. unfold Subsystem.GetCombinedColorAt.
  destruct (color_loop Location w (RegisteredLights (Sub w)) (Color.Black, 0))
    as [Hw Hc].
  fold (LiveLights w) in Hw, Hc. fold (LightsInRange Location w) in Hw, Hc.
  fold ls in Hw, Hc. simpl in Hw, Hc.
  destruct (fold_left _ _ _) as [TotalColor TotalWeight]. simpl in Hw, Hc.
  assert (TotalWeight = W) as -> by (unfold W; lra).
  destruct (Rgt_dec W 0); split; intros HW; try contradiction.
  - destruct Hch as (Hadd & Hscale & Hdiv).
    rewrite Hdiv, (Hc ch (conj Hadd (conj Hscale Hdiv))). reflexivity.
  - apply (Hc ch Hch).
Qed.

Lemma zero_sum_of_nonneg (l : list R) :
  Forall (fun x => 0 <= x) l -> Rsum l = 0 -> Forall (fun x => x = 0) l.
Proof.
  induction 1 as [|x l Hx Hl IH]; simpl; intros Hs; [constructor|].
  assert (0 <= Rsum l) by (clear -Hl; induction Hl; simpl; lra).
  constructor; [lra | apply IH; lra].
Qed.

Lemma ChannelSum_zero_weights (ch : FLinearColor -> R) (Location : FVector)
    (ls : list UPatternLightComponent) :
  Forall (fun L => LinearWeight Location L = 0) ls -> ChannelSum ch Location ls = 0.
Proof.
  unfold ChannelSum. induction 1 as [|L ls HL _ IH]; simpl; [reflexivity|].
  rewrite HL, IH. ring.
Qed.

Lemma PlainLight_in_range (c : FLinearColor) (i m : R) :
  InRangeb Origin (Light.TriggerFlash 1 m (PlainLight c i)) = true /\
  InRangeb Origin (PlainLight c i) = true.
Proof.
  unfold InRangeb. simpl. rewrite Dist_self.
  destruct (Rlt_dec 0 1000); [split; reflexivity | lra].
Qed.

Lemma PlainLight_weight (c : FLinearColor) (i m : R) :
  LinearWeight Origin (Light.TriggerFlash 1 m (PlainLight c i)) = i * m /\
  LinearWeight Origin (PlainLight c i) = i.
Proof.
  unfold LinearWeight, Light.GetCurrentIntensity, Light.EvaluatePattern,
    Light.RawPattern, FMath.Lerp. simpl. rewrite Dist_self. split; field.
Qed.

Lemma TwoLightWorld_in_range :
  LightsInRange Origin TwoLightWorld =
  [PlainLight Color.White 5000; Light.TriggerFlash 1 (-1) (PlainLight Red 5000)].
Proof.
  unfold LightsInRange, LiveLights. simpl.
  rewrite lookup_insert_ne by discriminate.
  rewrite lookup_singleton_eq, lookup_insert_eq. simpl.
  rewrite (proj2 (PlainLight_in_range Color.White 5000 0)).
  rewrite (proj1 (PlainLight_in_range Red 5000 (-1))). reflexivity.
Qed.

Lemma OneLightWorld_in_range (c : FLinearColor) (i : R) :
  LightsInRange Origin (OneLightWorld (PlainLight c i)) = [PlainLight c i].
Proof.
  unfold LightsInRange, LiveLights. simpl.
  rewrite lookup_singleton_eq. simpl.
  rewrite (proj2 (PlainLight_in_range c i 0)). reflexivity.
Qed.

(** C5, counterexample.  Two lights in range with weights 5000 and -5000:
    the total weight is zero and the result is not black (its green channel
    is 5000).  One white light of weight 5000: the total weight is positive
    and the alpha channel of the result is 5001/5000, not the weighted
    average 1 of the lights' alpha, because the sum starts from opaque
    black. *)
Lemma combined_color_counterexample :
  (Rsum (map (LinearWeight Origin) (LightsInRange Origin TwoLightWorld)) = 0 /\
   Subsystem.GetCombinedColorAt Origin TwoLightWorld <> Color.Black) /\
  (Rsum (map (LinearWeight Origin)
           (LightsInRange Origin (OneLightWorld (PlainLight Color.White 5000)))) = 5000 /\
   cA (Subsystem.GetCombinedColorAt Origin (OneLightWorld (PlainLight Color.White 5000)))
     = 5001 / 5000 /\
   ChannelSum cA Origin (LightsInRange Origin (OneLightWorld (PlainLight Color.White 5000)))
     / 5000 = 1).
Proof.
  split.
  - assert (HW : Rsum (map (LinearWeight Origin) (LightsInRange Origin TwoLightWorld)) = 0).
    { rewrite TwoLightWorld_in_range. simpl.
      rewrite (proj2 (PlainLight_weight Color.White 5000 0)).
      rewrite (proj1 (PlainLight_weight Red 5000 (-1))). lra. }
    split; [exact HW|].
    destruct (combined_color_channels Origin TwoLightWorld cG cG_linear) as [_ Hraw].
    intros Heq. rewrite Heq in Hraw.
    assert (Hn : ~ Rsum (map (LinearWeight Origin) (LightsInRange Origin TwoLightWorld)) > 0)
      by lra.
    specialize (Hraw Hn). rewrite TwoLightWorld_in_range in Hraw.
    unfold ChannelSum in Hraw. simpl in Hraw.
    rewrite (proj2 (PlainLight_weight Color.White 5000 0)) in Hraw.
    rewrite (proj1 (PlainLight_weight Red 5000 (-1))) in Hraw. lra.
  - assert (HW : Rsum (map (LinearWeight Origin)
                         (LightsInRange Origin (OneLightWorld (PlainLight Color.White 5000))))
                 = 5000).
    { rewrite OneLightWorld_in_range. simpl.
      rewrite (proj2 (PlainLight_weight Color.White 5000 0)). lra. }
    assert (HS : ChannelSum cA Origin
                   (LightsInRange Origin (OneLightWorld (PlainLight Color.White 5000)))
                 = 5000).
    { rewrite OneLightWorld_in_range. unfold ChannelSum. simpl.
      rewrite (proj2 (PlainLight_weight Color.White 5000 0)). lra. }
    split; [exact HW|]. split.
    + destruct (combined_color_channels Origin
                  (OneLightWorld (PlainLight Color.White 5000)) cA cA_linear) as [Havg _].
      rewrite Havg by (rewrite HW; lra). rewrite HW, HS. simpl. lra.
    + rewrite HS. lra.
Qed.

(** C5, amended.  [GetCombinedColorAt] weighs the live registered lights
    strictly within their radius by
    [(1 - distance/radius) * currentIntensity].  When the total weight is
    positive, the red, green and blue channels of the result are the
    weighted averages of the lights' current colours (nothing is stated
    about the alpha channel).  When no light is in range, and when the
    total weight is zero with no negative weight, the result is black;
    whenever the total weight is not positive the result is the weighted
    sum added to black, and nothing is divided. *)
Theorem combined_color (Location : FVector) (w : World) :
  let ls := LightsInRange Location w in
  let W := Rsum (map (LinearWeight Location) ls) in
  let c := Subsystem.GetCombinedColorAt Location w in
  (W > 0 ->
     cR c = ChannelSum cR Location ls / W /\
     cG c = ChannelSum cG Location ls / W /\
     cB c = ChannelSum cB Location ls / W) /\
  (ls = [] -> c = Color.Black) /\
  (W = 0 -> Forall (fun L => 0 <= LinearWeight Location L) ls -> c = Color.Black) /\
  (~ W > 0 ->
     cR c = ChannelSum cR Location ls /\
     cG c = ChannelSum cG Location ls /\
     cB c = ChannelSum cB Location ls /\
     cA c = 1 + ChannelSum cA Location ls).
Proof.
  intros ls W c.
  pose proof (combined_color_channels Location w cR cR_linear) as [HR HR'].
  pose proof (combined_color_channels Location w cG cG_linear) as [HG HG'].
  pose proof (combined_color_channels Location w cB cB_linear) as [HB HB'].
  pose proof (combined_color_channels Location w cA cA_linear) as [_ HA'].
  fold ls in HR, HR', HG, HG', HB, HB', HA'.
  fold W in HR, HR', HG, HG', HB, HB', HA'.
  fold c in HR, HR', HG, HG', HB, HB', HA'.
  simpl in HR, HR', HG, HG', HB, HB', HA'.
  assert (Hraw : ~ W > 0 ->
     cR c = ChannelSum cR Location ls /\ cG c = ChannelSum cG Location ls /\
     cB c = ChannelSum cB Location ls /\ cA c = 1 + ChannelSum cA Location ls).
  { intros HW. rewrite (HR' HW), (HG' HW), (HB' HW), (HA' HW).
    repeat split; lra. }
  assert (Hzero : ~ W > 0 -> Forall (fun L => LinearWeight Location L = 0) ls ->
                  c = Color.Black).
  { intros HW Hall. destruct (Hraw HW) as (A & B & C & D).
    apply color_ext; simpl.
    - rewrite A. apply ChannelSum_zero_weights, Hall.
    - rewrite B. apply ChannelSum_zero_weights, Hall.
    - rewrite C. apply ChannelSum_zero_weights, Hall.
    - rewrite D, ChannelSum_zero_weights by exact Hall. lra. }
  repeat apply conj.
  - intros HW. rewrite (HR HW), (HG HW), (HB HW).
    repeat split; f_equal; lra.
  - intros Hnil. apply Hzero.
    + unfold W. rewrite Hnil. simpl. lra.
    + rewrite Hnil. constructor.
  - intros HW Hpos. apply Hzero; [lra|].
    assert (Hz := zero_sum_of_nonneg (map (LinearWeight Location) ls)).
    rewrite Forall_map in Hz. specialize (Hz Hpos HW).
    rewrite Forall_map in Hz. exact Hz.
  - exact Hraw.
Qed.

Lemma combined_color_witness :
  cR (Subsystem.GetCombinedColorAt Origin (OneLightWorld (PlainLight Red 5000)))
    = ChannelSum cR Origin [PlainLight Red 5000] / 5000 /\
  Subsystem.GetCombinedColorAt Origin EmptyWorld = Color.Black /\
  Subsystem.GetCombinedColorAt Origin (OneLightWorld (PlainLight Red 0)) = Color.Black.
Proof.
  repeat apply conj.
  - destruct (combined_color Origin (OneLightWorld (PlainLight Red 5000)))
      as (Havg & _).
    rewrite OneLightWorld_in_range in Havg. simpl in Havg.
    rewrite (proj2 (PlainLight_weight Red 5000 0)) in Havg.
    replace (5000 + 0) with 5000 in Havg by lra.
    apply Havg. lra.
  - destruct (combined_color Origin EmptyWorld) as (_ & Hnone & _).
    apply Hnone. reflexivity.
  - destruct (combined_color Origin (OneLightWorld (PlainLight Red 0)))
      as (_ & _ & Hzero & _).
    rewrite OneLightWorld_in_range in Hzero. simpl in Hzero.
    rewrite (proj2 (PlainLight_weight Red 0 0)) in Hzero.
    apply Hzero; [lra|].
    constructor; [rewrite (proj2 (PlainLight_weight Red 0 0)); lra | constructor].
Defined.

(** ** Sync groups *)

Lemma SyncWith_self (M : UPatternLightComponent) : Light.SyncWith M M = M.
Proof. destruct M as [[] ]; reflexivity. Qed.

Lemma SyncWith_synced (M L : UPatternLightComponent) : SyncedTo M (Light.SyncWith M L).
Proof. split; reflexivity. Qed.

(** One iteration of the loop of [SyncGroup], for a live master and a live
    member: the master is unchanged, the member is synced, no object
    appears or disappears, and objects already synced stay synced. *)
Lemma SyncStep_spec (Master : nat) (M : UPatternLightComponent)
    (heap : gmap nat UPatternLightComponent) (h : nat) :
  heap !! Master = Some M -> is_Some (heap !! h) ->
  let heap1 := Subsystem.SyncStep Master heap h in
  heap1 !! Master = Some M /\
  (exists L', heap1 !! h = Some L' /\ SyncedTo M L') /\
  (forall k, is_Some (heap1 !! k) <-> is_Some (heap !! k)) /\
  (forall k L, heap !! k = Some L -> SyncedTo M L ->
     exists L', heap1 !! k = Some L' /\ SyncedTo M L').
Proof.
  intros HM [L HL]. unfold Subsystem.SyncStep. rewrite HM, HL. simpl.
  repeat apply conj.
  - destruct (decide (h = Master)) as [->|Hne].
    + rewrite lookup_insert_eq. rewrite HM in HL. injection HL as <-.
      rewrite SyncWith_self. reflexivity.
    + rewrite lookup_insert_ne by assumption. exact HM.
  - exists (Light.SyncWith M L). rewrite lookup_insert_eq.
    split; [reflexivity | apply SyncWith_synced].
  - intros k. destruct (decide (h = k)) as [<-|Hne].
    + rewrite lookup_insert_eq, HL. split; intros _; eexists; reflexivity.
    + rewrite lookup_insert_ne by assumption. reflexivity.
  - intros k Lk Hk Hs. destruct (decide (h = k)) as [<-|Hne].
    + exists (Light.SyncWith M L). rewrite lookup_insert_eq.
      split; [reflexivity | apply SyncWith_synced].
    + exists Lk. rewrite lookup_insert_ne by assumption. split; assumption.
Qed.

Lemma SyncLoop_spec (Master : nat) (M : UPatternLightComponent) (Rest : list nat) :
  forall heap : gmap nat UPatternLightComponent,
    heap !! Master = Some M ->
    Forall (fun h => is_Some (heap !! h)) Rest ->
    let heap' := fold_left (Subsystem.SyncStep Master) Rest heap in
    heap' !! Master = Some M /\
    (forall k, is_Some (heap' !! k) <-> is_Some (heap !! k)) /\
    (forall k L, heap !! k = Some L -> SyncedTo M L ->
       exists L', heap' !! k = Some L' /\ SyncedTo M L') /\
    Forall (fun h => exists L', heap' !! h = Some L' /\ SyncedTo M L') Rest.
Proof.
  induction Rest as [|h Rest IH]; intros heap HM Hlive; simpl.
  - repeat apply conj; [exact HM | reflexivity | eauto | constructor].
  - inversion Hlive as [|? ? Hh Hrest]; subst.
    destruct (SyncStep_spec Master M heap h HM Hh) as (HM1 & (L1 & HL1 & HS1) & Hdom1 & Hkeep1).
    assert (Hlive1 : Forall (fun k => is_Some (Subsystem.SyncStep Master heap h !! k)) Rest).
    { rewrite Forall_forall in Hrest |- *. intros k Hk. apply Hdom1, Hrest, Hk. }
    destruct (IH (Subsystem.SyncStep Master heap h) HM1 Hlive1)
      as (HM' & Hdom' & Hkeep' & Hall').
    repeat apply conj.
    + exact HM'.
    + intros k. rewrite Hdom'. apply Hdom1.
    + intros k L Hk Hs. destruct (Hkeep1 k L Hk Hs) as (L2 & HL2 & HS2).
      apply (Hkeep' k L2 HL2 HS2).
    + constructor; [|exact Hall']. apply (Hkeep' h L1 HL1 HS1).
Qed.

Lemma GetLightsInSyncGroup_live (GroupName : FName) (w : World) :
  Forall (fun h => is_Some (LightHeap w !! h)) (Subsystem.GetLightsInSyncGroup GroupName w).
Proof.
  unfold Subsystem.GetLightsInSyncGroup.
  destruct (SyncGroups (Sub w) !! GroupName) as [Group|]; [|constructor].
  rewrite Forall_forall. intros h Hin.
  apply list_elem_of_In, filter_In in Hin as [_ Hv].
  unfold Subsystem.IsValidLight in Hv. apply bool_decide_eq_true in Hv. exact Hv.
Qed.

Lemma filter_ext_In_bool {A : Type} (f g : A -> bool) (l : list A) :
  (forall x, f x = g x) -> List.filter f l = List.filter g l.
Proof.
  intros Hfg. induction l as [|x l IH]; simpl; [reflexivity|].
  rewrite Hfg, IH. reflexivity.
Qed.

(** C7.  When [SyncGroup(name)] is called on a group with at least two
    live members, the first live member (the master) is unchanged, the
    live members of the group are the same as before, and each of them has
    the master's phase time and phase offset. *)
Theorem sync_group (GroupName : FName) (w : World) (Master : nat) (Rest : list nat) :
  Subsystem.GetLightsInSyncGroup GroupName w = Master :: Rest ->
  Rest <> [] ->
  let w' := Subsystem.SyncGroup GroupName w in
  exists M,
    LightHeap w !! Master = Some M /\
    LightHeap w' !! Master = Some M /\
    Subsystem.GetLightsInSyncGroup GroupName w' = Master :: Rest /\
    Forall (fun h => exists L', LightHeap w' !! h = Some L' /\
                       CurrentTime L' = CurrentTime M /\
                       PhaseOffset (PatternSettings L') = PhaseOffset (PatternSettings M))
      (Master :: Rest).
Proof.
  intros Hmembers Hne w'.
  pose proof (GetLightsInSyncGroup_live GroupName w) as Hlive.
  rewrite Hmembers in Hlive.
  inversion Hlive as [|? ? [M HM] Hrest]; subst.
  assert (Hw' : w' = Subsystem.with_heap w
                       (fold_left (Subsystem.SyncStep Master) Rest (LightHeap w))).
  { unfold w', Subsystem.SyncGroup. rewrite Hmembers.
    destruct Rest as [|r Rest]; [contradiction|].
    rewrite bool_decide_eq_true_2 by (simpl; lia). reflexivity. }
  destruct (SyncLoop_spec Master M Rest (LightHeap w) HM Hrest)
    as (HM' & Hdom & Hkeep & Hall).
  exists M. rewrite Hw'. simpl. repeat apply conj.
  - exact HM.
  - exact HM'.
  - rewrite <- Hmembers. unfold Subsystem.GetLightsInSyncGroup. simpl.
    destruct (SyncGroups (Sub w) !! GroupName) as [Group|]; [|reflexivity].
    apply filter_ext_In_bool. intros h. unfold Subsystem.IsValidLight. simpl.
    apply bool_decide_ext, Hdom.
  - constructor; [|exact Hall].
    exists M. split; [exact HM' | split; reflexivity].
Qed.

Lemma ThreeLampWorld_group :
  Subsystem.GetLightsInSyncGroup "lamps" ThreeLampWorld = [0; 1; 2]%nat.
Proof. reflexivity. Qed.

Lemma sync_group_witness :
  exists M,
    LightHeap ThreeLampWorld !! 0%nat = Some M /\
    LightHeap (Subsystem.SyncGroup "lamps" ThreeLampWorld) !! 0%nat = Some M /\
    Subsystem.GetLightsInSyncGroup "lamps" (Subsystem.SyncGroup "lamps" ThreeLampWorld)
      = [0; 1; 2]%nat /\
    Forall (fun h => exists L',
              LightHeap (Subsystem.SyncGroup "lamps" ThreeLampWorld) !! h = Some L' /\
              CurrentTime L' = CurrentTime M /\
              PhaseOffset (PatternSettings L') = PhaseOffset (PatternSettings M))
      [0; 1; 2]%nat.
Proof.
  apply (sync_group "lamps" ThreeLampWorld 0%nat [1; 2]%nat).
  - exact ThreeLampWorld_group.
  - discriminate.
Defined.

(** The scenario of the specification, evaluated: after the call the three
    lamps have phase time 1 and phase offset 0.25, the first lamp's. *)
Lemma ThreeLampWorld_synced :
  Forall (fun h => exists L',
            LightHeap (Subsystem.SyncGroup "lamps" ThreeLampWorld) !! h = Some L' /\
            CurrentTime L' = 1 /\ PhaseOffset (PatternSettings L') = 0.25)
    [0; 1; 2]%nat.
Proof.
  destruct (SyncLoop_spec 0%nat (GroupLight "lamps" 1 0.25) [1; 2]%nat
              (LightHeap ThreeLampWorld)) as (HM & _ & _ & Hall).
  - reflexivity.
  - repeat constructor; eexists; reflexivity.
  - assert (Hw : Subsystem.SyncGroup "lamps" ThreeLampWorld
                 = Subsystem.with_heap ThreeLampWorld
                     (fold_left (Subsystem.SyncStep 0) [1; 2]%nat (LightHeap ThreeLampWorld))).
    { unfold Subsystem.SyncGroup. rewrite ThreeLampWorld_group. reflexivity. }
    rewrite Hw. constructor; [|exact Hall].
    exists (GroupLight "lamps" 1 0.25). split; [exact HM | split; reflexivity].
Qed.

(** * Further properties of the registry *)

Lemma IsValidLight_same_heap (w1 w2 : World) (l : list nat) :
  LightHeap w1 = LightHeap w2 ->
  List.filter (Subsystem.IsValidLight w1) l = List.filter (Subsystem.IsValidLight w2) l.
Proof.
  intros Hh. apply filter_ext_In_bool. intros h.
  unfold Subsystem.IsValidLight. rewrite Hh. reflexivity.
Qed.

Lemma IsValidLight_true (w : World) (h : nat) (L : UPatternLightComponent) :
  LightHeap w !! h = Some L -> Subsystem.IsValidLight w h = true.
Proof.
  intros Hl. unfold Subsystem.IsValidLight. apply bool_decide_eq_true_2.
  rewrite Hl. eexists; reflexivity.
Qed.

Lemma elem_of_remove_all (h k : nat) (l : list nat) :
  k ∈ Subsystem.remove_all h l <-> k ∈ l /\ k <> h.
Proof.
  unfold Subsystem.remove_all. rewrite !list_elem_of_In, filter_In.
  rewrite negb_true_iff, Nat.eqb_neq. reflexivity.
Qed.

Lemma remove_all_absent (h : nat) (l : list nat) :
  h ∉ l -> Subsystem.remove_all h l = l.
Proof.
  unfold Subsystem.remove_all. induction l as [|k l IH]; intros Hn; simpl; [reflexivity|].
  apply not_elem_of_cons in Hn as [Hk Hl].
  destruct (Nat.eqb_spec k h) as [->|_]; [contradiction|].
  simpl. rewrite IH by assumption. reflexivity.
Qed.

Lemma remove_all_snoc (h : nat) (l : list nat) :
  h ∉ l -> Subsystem.remove_all h (l ++ [h]) = l.
Proof.
  intros Hn. unfold Subsystem.remove_all. rewrite List.filter_app. simpl.
  rewrite Nat.eqb_refl. simpl. rewrite app_nil_r. apply remove_all_absent, Hn.
Qed.

Lemma RegisterLight_cases (h : nat) (w : World) :
  (Subsystem.RegisterLight h w = w /\
   ((LightHeap w !! h = None) \/ (h ∈ RegisteredLights (Sub w)))) \/
  (exists L, LightHeap w !! h = Some L /\ (h ∉ RegisteredLights (Sub w)) /\
     Subsystem.RegisterLight h w =
     Subsystem.with_sub w
       (Subsystem.with_registries (Sub w) (RegisteredLights (Sub w) ++ [h])
          (RegisteredReflections (Sub w))
          (if bool_decide (SyncGroup L = NAME_None) then SyncGroups (Sub w)
           else <[SyncGroup L :=
                    default [] (SyncGroups (Sub w) !! SyncGroup L) ++ [h]]>
                  (SyncGroups (Sub w))))).
Proof.
  unfold Subsystem.RegisterLight.
  destruct (LightHeap w !! h) as [L|] eqn:Hl; [|left; split; [reflexivity | left; reflexivity]].
  destruct (bool_decide (h ∈ RegisteredLights (Sub w))) eqn:Hin.
  - apply bool_decide_eq_true in Hin. left. split; [reflexivity | right; exact Hin].
  - apply bool_decide_eq_false in Hin. right. exists L.
    split; [reflexivity | split; [exact Hin | reflexivity]].
Qed.

(** X1.  [RegisterLight] never creates a duplicate entry, registering the
    same light twice has the effect of registering it once, and a null
    pointer is ignored. *)
Theorem RegisterLight_idempotent (h : nat) (w : World) :
  (NoDup (RegisteredLights (Sub w)) ->
     NoDup (RegisteredLights (Sub (Subsystem.RegisterLight h w)))) /\
  Subsystem.RegisterLight h (Subsystem.RegisterLight h w) = Subsystem.RegisterLight h w /\
  (LightHeap w !! h = None -> Subsystem.RegisterLight h w = w).
Proof.
  destruct (RegisterLight_cases h w) as [[E Hwhy] | (L & Hl & Hn & E)].
  - rewrite !E. repeat apply conj; [tauto | reflexivity | reflexivity].
  - repeat apply conj.
    + intros Hnd. rewrite E. simpl. apply NoDup_app. repeat apply conj.
      * exact Hnd.
      * intros k Hk Hk'. apply list_elem_of_singleton in Hk'. subst k. contradiction.
      * apply NoDup_singleton.
    + destruct (RegisterLight_cases h (Subsystem.RegisterLight h w))
        as [[E' _] | (L' & _ & Hn' & _)]; [exact E'|].
      exfalso. apply Hn'. rewrite E. simpl.
      apply elem_of_app. right. apply list_elem_of_singleton. reflexivity.
    + rewrite Hl. discriminate.
Qed.

Lemma RegisterLight_idempotent_witness :
  NoDup (RegisteredLights (Sub (Subsystem.RegisterLight 0 (OneLightWorld DefaultLight)))) /\
  Subsystem.RegisterLight 5 (OneLightWorld DefaultLight) = OneLightWorld DefaultLight.
Proof.
  destruct (RegisterLight_idempotent 0 (OneLightWorld DefaultLight)) as (Hnd & _).
  destruct (RegisterLight_idempotent 5 (OneLightWorld DefaultLight)) as (_ & _ & Hnull).
  split.
  - apply Hnd. simpl. apply NoDup_singleton.
  - apply Hnull. simpl. apply lookup_singleton_ne. discriminate.
Defined.

(** X2.  Registering a live light that is not yet registered appends it to
    the registry; when its sync group is named, it becomes the last live
    member of that group and no other group changes; when its sync group
    is [NAME_None], no group changes. *)
Theorem RegisterLight_joins_group (h : nat) (L : UPatternLightComponent) (w : World) :
  LightHeap w !! h = Some L ->
  h ∉ RegisteredLights (Sub w) ->
  let w' := Subsystem.RegisterLight h w in
  RegisteredLights (Sub w') = RegisteredLights (Sub w) ++ [h] /\
  (SyncGroup L <> NAME_None ->
     Subsystem.GetLightsInSyncGroup (SyncGroup L) w' =
       Subsystem.GetLightsInSyncGroup (SyncGroup L) w ++ [h] /\
     (forall g, g <> SyncGroup L ->
        Subsystem.GetLightsInSyncGroup g w' = Subsystem.GetLightsInSyncGroup g w)) /\
  (SyncGroup L = NAME_None -> SyncGroups (Sub w') = SyncGroups (Sub w)).
Proof.
  intros Hl Hn w'.
  assert (Hw' : w' =
    Subsystem.with_sub w
      (Subsystem.with_registries (Sub w) (RegisteredLights (Sub w) ++ [h])
         (RegisteredReflections (Sub w))
         (if bool_decide (SyncGroup L = NAME_None) then SyncGroups (Sub w)
          else <[SyncGroup L :=
                   default [] (SyncGroups (Sub w) !! SyncGroup L) ++ [h]]>
                 (SyncGroups (Sub w))))).
  { unfold w', Subsystem.RegisterLight. rewrite Hl.
    rewrite bool_decide_eq_false_2 by exact Hn. reflexivity. }
  rewrite Hw'. clear Hw'. repeat apply conj; [reflexivity | |].
  - intros Hg. rewrite bool_decide_eq_false_2 by exact Hg.
    unfold Subsystem.GetLightsInSyncGroup. simpl. split.
    + rewrite lookup_insert_eq, List.filter_app. simpl.
      replace (Subsystem.IsValidLight _ h) with true
        by (symmetry; apply (IsValidLight_true _ h L); exact Hl).
      f_equal.
      destruct (SyncGroups (Sub w) !! SyncGroup L) as [Group|]; simpl.
      * apply IsValidLight_same_heap. reflexivity.
      * reflexivity.
    + intros g Hne. rewrite lookup_insert_ne by congruence.
      destruct (SyncGroups (Sub w) !! g) as [Group|]; [|reflexivity].
      apply IsValidLight_same_heap. reflexivity.
  - intros Hg. rewrite bool_decide_eq_true_2 by exact Hg. reflexivity.
Qed.

Lemma RegisterLight_joins_group_witness :
  Subsystem.GetLightsInSyncGroup "lamps"
    (Subsystem.RegisterLight 0
       {| Sub := DefaultSubsystem; LightHeap := {[ 0%nat := GroupLight "lamps" 1 0.25 ]};
          ReflectionHeap := ∅; CleanupTimer := 0 |}) = [] ++ [0%nat].
Proof.
  refine (proj1 (proj1 (proj2 (RegisterLight_joins_group 0 (GroupLight "lamps" 1 0.25)
    {| Sub := DefaultSubsystem; LightHeap := {[ 0%nat := GroupLight "lamps" 1 0.25 ]};
       ReflectionHeap := ∅; CleanupTimer := 0 |} _ _)) _)).
  - apply lookup_singleton_eq.
  - simpl. apply not_elem_of_nil.
  - simpl. discriminate.
Defined.

Lemma not_elem_of_filter (f : nat -> bool) (h : nat) (l : list nat) :
  h ∉ l -> h ∉ List.filter f l.
Proof.
  intros Hn Hin. apply Hn. apply list_elem_of_In.
  apply list_elem_of_In, filter_In in Hin. tauto.
Qed.

(** X3.  [UnregisterLight] of a live light removes it from the registry
    and from the members of its sync group, keeps every other registered
    light registered, and destroys nothing. *)
Theorem UnregisterLight_removes (h : nat) (L : UPatternLightComponent) (w : World) :
  LightHeap w !! h = Some L ->
  let w' := Subsystem.UnregisterLight h w in
  (h ∉ RegisteredLights (Sub w')) /\
  (forall k, k <> h ->
     (k ∈ RegisteredLights (Sub w')) <-> (k ∈ RegisteredLights (Sub w))) /\
  (SyncGroup L <> NAME_None ->
     h ∉ Subsystem.GetLightsInSyncGroup (SyncGroup L) w') /\
  LightHeap w' = LightHeap w.
Proof.
  intros Hl w'. unfold w', Subsystem.UnregisterLight. rewrite Hl. simpl.
  repeat apply conj.
  - rewrite elem_of_remove_all. tauto.
  - intros k Hk. rewrite elem_of_remove_all. tauto.
  - intros Hg. rewrite bool_decide_eq_false_2 by exact Hg.
    unfold Subsystem.GetLightsInSyncGroup. simpl.
    destruct (SyncGroups (Sub w) !! SyncGroup L) as [Group|] eqn:HG.
    + rewrite lookup_insert_eq. apply not_elem_of_filter.
      rewrite elem_of_remove_all. tauto.
    + rewrite HG. apply not_elem_of_nil.
  - reflexivity.
Qed.

Lemma UnregisterLight_removes_witness :
  (0%nat ∉ RegisteredLights (Sub (Subsystem.UnregisterLight 0 ThreeLampWorld))) /\
  (0%nat ∉ Subsystem.GetLightsInSyncGroup "lamps" (Subsystem.UnregisterLight 0 ThreeLampWorld)).
Proof.
  destruct (UnregisterLight_removes 0 (GroupLight "lamps" 1 0.25) ThreeLampWorld)
    as (Hreg & _ & Hgroup & _).
  - reflexivity.
  - split; [exact Hreg | apply Hgroup; discriminate].
Defined.

(** X4.  Unregistering a light right after registering it, when it was
    not registered before and is in no stored member list of its group,
    restores the registry and the live members of every sync group. *)
Theorem Register_then_Unregister (h : nat) (L : UPatternLightComponent) (w : World) :
  LightHeap w !! h = Some L ->
  h ∉ RegisteredLights (Sub w) ->
  (forall Group, SyncGroups (Sub w) !! SyncGroup L = Some Group -> h ∉ Group) ->
  let w' := Subsystem.UnregisterLight h (Subsystem.RegisterLight h w) in
  RegisteredLights (Sub w') = RegisteredLights (Sub w) /\
  (forall g, Subsystem.GetLightsInSyncGroup g w' = Subsystem.GetLightsInSyncGroup g w).
Proof.
  intros Hl Hn Hgroup w'.
  destruct (RegisterLight_cases h w) as [[_ [Hnone|Hin]] | (L' & Hl' & _ & E)];
    [rewrite Hl in Hnone; discriminate | contradiction |].
  rewrite Hl in Hl'. injection Hl' as <-.
  unfold w'. rewrite E. clear E w'.
  unfold Subsystem.UnregisterLight. simpl. rewrite Hl.
  split; [apply remove_all_snoc, Hn|].
  intros g. unfold Subsystem.GetLightsInSyncGroup. simpl.
  destruct (bool_decide (SyncGroup L = NAME_None)) eqn:Hb; [reflexivity|].
  rewrite lookup_insert_eq.
  destruct (decide (g = SyncGroup L)) as [->|Hne].
  - rewrite lookup_insert_eq.
    destruct (SyncGroups (Sub w) !! SyncGroup L) as [Group|] eqn:HG; simpl.
    + rewrite (IsValidLight_same_heap _ w) by reflexivity.
      rewrite remove_all_snoc by exact (Hgroup Group eq_refl). reflexivity.
    + rewrite Nat.eqb_refl. reflexivity.
  - rewrite !lookup_insert_ne by congruence.
    destruct (SyncGroups (Sub w) !! g) as [Group|]; [|reflexivity].
    apply IsValidLight_same_heap. reflexivity.
Qed.

Lemma Register_then_Unregister_witness :
  RegisteredLights
    (Sub (Subsystem.UnregisterLight 1
            (Subsystem.RegisterLight 1
               {| Sub := DefaultSubsystem;
                  LightHeap := {[ 1%nat := GroupLight "lamps" 3 0.5 ]};
                  ReflectionHeap := ∅; CleanupTimer := 0 |}))) = [].
Proof.
  refine (proj1 (Register_then_Unregister 1 (GroupLight "lamps" 3 0.5)
    {| Sub := DefaultSubsystem; LightHeap := {[ 1%nat := GroupLight "lamps" 3 0.5 ]};
       ReflectionHeap := ∅; CleanupTimer := 0 |} _ _ _)).
  - apply lookup_singleton_eq.
  - simpl. apply not_elem_of_nil.
  - simpl. intros Group HG. rewrite lookup_empty in HG. discriminate.
Defined.

(** ** Stale references *)

Lemma fold_left_pointwise {A B : Type} (f g : A -> B -> A) (l : list B) :
  (forall a b, f a b = g a b) -> forall a, fold_left f l a = fold_left g l a.
Proof.
  intros Hfg. induction l as [|b l IH]; intros a; simpl; [reflexivity|].
  rewrite Hfg. apply IH.
Qed.

Lemma fold_left_skip {A : Type} (step : A -> nat -> A) (valid : nat -> bool)
    (l : list nat) :
  (forall a h, valid h = false -> step a h = a) ->
  forall a, fold_left step (List.filter valid l) a = fold_left step l a.
Proof.
  intros Hskip. induction l as [|h l IH]; intros a; simpl; [reflexivity|].
  destruct (valid h) eqn:Hv; simpl; [apply IH|].
  rewrite (Hskip a h Hv). apply IH.
Qed.

Lemma filter_idem {A : Type} (f : A -> bool) (l : list A) :
  List.filter f (List.filter f l) = List.filter f l.
Proof.
  induction l as [|x l IH]; simpl; [reflexivity|].
  destruct (f x) eqn:Hx; simpl; [rewrite Hx, IH|]; auto.
Qed.

Lemma IsValidLight_false (w : World) (h : nat) :
  Subsystem.IsValidLight w h = false -> LightHeap w !! h = None.
Proof.
  unfold Subsystem.IsValidLight. intros Hv. apply bool_decide_eq_false in Hv.
  destruct (LightHeap w !! h) as [L|]; [|reflexivity].
  exfalso. apply Hv. eexists; reflexivity.
Qed.

(** The three queries read the registry only through its live handles, the
    heap, and (for the intensity) the global intensity. *)
Lemma intensity_query_ext (Location : FVector) (w1 w2 : World) :
  LightHeap w1 = LightHeap w2 ->
  GlobalIntensity (GlobalConfig (Sub w1)) = GlobalIntensity (GlobalConfig (Sub w2)) ->
  List.filter (Subsystem.IsValidLight w2) (RegisteredLights (Sub w1)) =
  List.filter (Subsystem.IsValidLight w2) (RegisteredLights (Sub w2)) ->
  Subsystem.GetCombinedIntensityAt Location w1 = Subsystem.GetCombinedIntensityAt Location w2.
Proof.
  intros Hh Hg Hl. unfold Subsystem.GetCombinedIntensityAt. rewrite Hg. f_equal.
  rewrite (fold_left_pointwise (Subsystem.IntensityStep Location w1)
             (Subsystem.IntensityStep Location w2))
    by (intros a h; unfold Subsystem.IntensityStep; rewrite Hh; reflexivity).
  assert (Hskip : forall a h, Subsystem.IsValidLight w2 h = false ->
                    Subsystem.IntensityStep Location w2 a h = a).
  { intros a h Hv. unfold Subsystem.IntensityStep.
    rewrite (IsValidLight_false w2 h Hv). reflexivity. }
  rewrite <- (fold_left_skip _ _ (RegisteredLights (Sub w1)) Hskip).
  rewrite <- (fold_left_skip _ _ (RegisteredLights (Sub w2)) Hskip).
  rewrite Hl. reflexivity.
Qed.

Lemma color_query_ext (Location : FVector) (w1 w2 : World) :
  LightHeap w1 = LightHeap w2 ->
  List.filter (Subsystem.IsValidLight w2) (RegisteredLights (Sub w1)) =
  List.filter (Subsystem.IsValidLight w2) (RegisteredLights (Sub w2)) ->
  Subsystem.GetCombinedColorAt Location w1 = Subsystem.GetCombinedColorAt Location w2.
Proof.
  intros Hh Hl. unfold Subsystem.GetCombinedColorAt.
  rewrite (fold_left_pointwise (Subsystem.ColorStep Location w1)
             (Subsystem.ColorStep Location w2))
    by (intros [c W] h; rewrite !ColorStep_eq, Hh; reflexivity).
  assert (Hskip : forall a h, Subsystem.IsValidLight w2 h = false ->
                    Subsystem.ColorStep Location w2 a h = a).
  { intros [c W] h Hv. rewrite ColorStep_eq.
    rewrite (IsValidLight_false w2 h Hv). reflexivity. }
  rewrite <- (fold_left_skip _ _ (RegisteredLights (Sub w1)) Hskip).
  rewrite <- (fold_left_skip _ _ (RegisteredLights (Sub w2)) Hskip).
  rewrite Hl. reflexivity.
Qed.

Lemma group_query_ext (g : FName) (w1 w2 : World) :
  LightHeap w1 = LightHeap w2 ->
  (List.filter (Subsystem.IsValidLight w2) <$> (SyncGroups (Sub w1) !! g)) =
  (List.filter (Subsystem.IsValidLight w2) <$> (SyncGroups (Sub w2) !! g)) ->
  Subsystem.GetLightsInSyncGroup g w1 = Subsystem.GetLightsInSyncGroup g w2.
Proof.
  intros Hh Hl. unfold Subsystem.GetLightsInSyncGroup.
  destruct (SyncGroups (Sub w1) !! g) as [G1|], (SyncGroups (Sub w2) !! g) as [G2|];
    simpl in Hl; try discriminate; [|reflexivity].
  injection Hl as Hl. rewrite (IsValidLight_same_heap w1 w2) by exact Hh. exact Hl.
Qed.

Lemma cleanup_live (w : World) :
  Forall (fun h => is_Some (LightHeap (Subsystem.CleanupStaleReferences w) !! h))
    (RegisteredLights (Sub (Subsystem.CleanupStaleReferences w))).
Proof.
  simpl. rewrite Forall_forall. intros h Hin.
  apply list_elem_of_In, filter_In in Hin as [_ Hv].
  unfold Subsystem.IsValidLight in Hv. apply bool_decide_eq_true in Hv. exact Hv.
Qed.

Lemma cleanup_intensity (w : World) (Location : FVector) :
  Subsystem.GetCombinedIntensityAt Location (Subsystem.CleanupStaleReferences w) =
  Subsystem.GetCombinedIntensityAt Location w.
Proof.
  apply intensity_query_ext; [reflexivity | reflexivity |]. simpl. apply filter_idem.
Qed.

Lemma cleanup_color (w : World) (Location : FVector) :
  Subsystem.GetCombinedColorAt Location (Subsystem.CleanupStaleReferences w) =
  Subsystem.GetCombinedColorAt Location w.
Proof.
  apply color_query_ext; [reflexivity|]. simpl. apply filter_idem.
Qed.

Lemma cleanup_groups (w : World) (g : FName) :
  Subsystem.GetLightsInSyncGroup g (Subsystem.CleanupStaleReferences w) =
  Subsystem.GetLightsInSyncGroup g w.
Proof.
  apply group_query_ext; [reflexivity|]. simpl. rewrite lookup_fmap.
  destruct (SyncGroups (Sub w) !! g) as [G|]; simpl; [|reflexivity].
  f_equal. apply filter_idem.
Qed.

(** X5.  After [CleanupStaleReferences] every registered handle is live;
    exactly the live registered handles remain; the answers of the
    intensity, colour and sync group queries are what they were before;
    and a second cleanup changes nothing. *)
Theorem CleanupStaleReferences_spec (w : World) :
  let w' := Subsystem.CleanupStaleReferences w in
  Forall (fun h => is_Some (LightHeap w' !! h)) (RegisteredLights (Sub w')) /\
  RegisteredLights (Sub w') =
    List.filter (Subsystem.IsValidLight w) (RegisteredLights (Sub w)) /\
  (forall Location,
     Subsystem.GetCombinedIntensityAt Location w' =
     Subsystem.GetCombinedIntensityAt Location w) /\
  (forall Location,
     Subsystem.GetCombinedColorAt Location w' = Subsystem.GetCombinedColorAt Location w) /\
  (forall g, Subsystem.GetLightsInSyncGroup g w' = Subsystem.GetLightsInSyncGroup g w) /\
  Subsystem.CleanupStaleReferences w' = w'.
Proof.
  intros w'. repeat apply conj.
  - apply cleanup_live.
  - reflexivity.
  - apply cleanup_intensity.
  - apply cleanup_color.
  - apply cleanup_groups.
  - unfold w', Subsystem.CleanupStaleReferences, Subsystem.with_sub,
      Subsystem.with_registries. simpl.
    f_equal. f_equal.
    + apply filter_idem.
    + apply filter_idem.
    + rewrite <- map_fmap_compose. apply map_fmap_ext.
      intros g G _. simpl. apply filter_idem.
Qed.

(** ** The subsystem's tick and the queries *)

Lemma Tick_cases (dt : R) (w : World) :
  (~ Running w /\ Subsystem.Tick dt w = w) \/
  (Running w /\ ~ CleanupTimer w + dt > 5 /\
   Subsystem.Tick dt w = ClocksAdvanced dt w) \/
  (Running w /\ CleanupTimer w + dt > 5 /\
   Subsystem.Tick dt w =
   Subsystem.with_cleanup_timer
     (Subsystem.CleanupStaleReferences (ClocksAdvanced dt w)) 0).
Proof.
  unfold Subsystem.Tick, Running.
  destruct (bEnabled (GlobalConfig (Sub w))), (bPaused (Sub w)); simpl;
    try (left; split; [intros [? ?]; discriminate | reflexivity]).
  right.
  destruct (Rgt_dec (CleanupTimer w + dt) 5) as [Hgt|Hle].
  - right. split; [split; reflexivity | split; [exact Hgt | reflexivity]].
  - left. split; [split; reflexivity | split; [exact Hle | reflexivity]].
Qed.

(** X6.  [Tick] never changes the answer of the intensity, colour and sync
    group queries (it only drops stale handles); after a tick of a running
    subsystem the cleanup timer is at most 5, and when the timer passed 5
    it is reset to 0 and every registered handle is live. *)
Theorem Tick_preserves_queries (dt : R) (w : World) :
  (forall Location,
     Subsystem.GetCombinedIntensityAt Location (Subsystem.Tick dt w) =
     Subsystem.GetCombinedIntensityAt Location w) /\
  (forall Location,
     Subsystem.GetCombinedColorAt Location (Subsystem.Tick dt w) =
     Subsystem.GetCombinedColorAt Location w) /\
  (forall g,
     Subsystem.GetLightsInSyncGroup g (Subsystem.Tick dt w) =
     Subsystem.GetLightsInSyncGroup g w) /\
  (Running w ->
     CleanupTimer (Subsystem.Tick dt w) <= 5 /\
     (CleanupTimer w + dt > 5 ->
        CleanupTimer (Subsystem.Tick dt w) = 0 /\
        Forall (fun h => is_Some (LightHeap (Subsystem.Tick dt w) !! h))
          (RegisteredLights (Sub (Subsystem.Tick dt w))))).
Proof.
  destruct (Tick_cases dt w) as [[Hn E] | [(Hr & Hle & E) | (Hr & Hgt & E)]];
    rewrite E; clear E.
  - repeat apply conj; try reflexivity. intros Hr. contradiction.
  - repeat apply conj; try reflexivity.
    intros _. simpl. split; [lra | intros; lra].
  - pose proof (cleanup_live (ClocksAdvanced dt w)) as Hlive.
    pose proof (cleanup_intensity (ClocksAdvanced dt w)) as Hi.
    pose proof (cleanup_color (ClocksAdvanced dt w)) as Hc.
    pose proof (cleanup_groups (ClocksAdvanced dt w)) as Hg.
    repeat apply conj.
    + intros Location.
      transitivity (Subsystem.GetCombinedIntensityAt Location
                      (Subsystem.CleanupStaleReferences (ClocksAdvanced dt w)));
        [apply intensity_query_ext; reflexivity|].
      rewrite (Hi Location). apply intensity_query_ext; reflexivity.
    + intros Location.
      transitivity (Subsystem.GetCombinedColorAt Location
                      (Subsystem.CleanupStaleReferences (ClocksAdvanced dt w)));
        [apply color_query_ext; reflexivity|].
      rewrite (Hc Location). apply color_query_ext; reflexivity.
    + intros g.
      transitivity (Subsystem.GetLightsInSyncGroup g
                      (Subsystem.CleanupStaleReferences (ClocksAdvanced dt w)));
        [apply group_query_ext; reflexivity|].
      rewrite (Hg g). apply group_query_ext; reflexivity.
    + intros _. simpl. split; [lra|]. intros _. split; [reflexivity | exact Hlive].
Qed.

Lemma Tick_preserves_queries_witness :
  CleanupTimer (Subsystem.Tick 6 (OneLightWorld DefaultLight)) = 0.
Proof.
  destruct (Tick_preserves_queries 6 (OneLightWorld DefaultLight)) as (_ & _ & _ & H).
  destruct H as [_ H]; [split; reflexivity|].
  apply H. simpl. lra.
Defined.

Lemma Tick_keeps_settings (dt : R) (w : World) :
  GlobalConfig (Sub (Subsystem.Tick dt w)) = GlobalConfig (Sub w) /\
  bPaused (Sub (Subsystem.Tick dt w)) = bPaused (Sub w).
Proof.
  destruct (Tick_cases dt w) as [[_ E] | [(_ & _ & E) | (_ & _ & E)]];
    rewrite E; split; reflexivity.
Qed.

(** X7.  Over a run of ticks, a running subsystem stays running and its
    master time grows by the global speed times the elapsed time; a paused
    or disabled subsystem stays exactly as it is. *)
Theorem TickAll_MasterTime (dts : list R) (w : World) :
  (Running w ->
     Running (TickAll dts w) /\
     MasterTime (Sub (TickAll dts w)) =
     MasterTime (Sub w) + GlobalSpeed (GlobalConfig (Sub w)) * Elapsed dts) /\
  (bEnabled (GlobalConfig (Sub w)) = false \/ bPaused (Sub w) = true ->
     TickAll dts w = w).
Proof.
  split.
  - revert w. induction dts as [|dt dts IH]; intros w Hr.
    + simpl. split; [exact Hr | lra].
    + change (TickAll (dt :: dts) w) with (TickAll dts (Subsystem.Tick dt w)).
      destruct (Tick_keeps_settings dt w) as [Hc Hp].
      assert (Hr' : Running (Subsystem.Tick dt w)).
      { destruct Hr as [He Hq]. split; [rewrite Hc; exact He | rewrite Hp; exact Hq]. }
      destruct (IH _ Hr') as [Hrun Hm]. split; [exact Hrun|].
      rewrite Hm, Hc, (Tick_MasterTime_running dt w Hr). simpl. lra.
  - intros Hn. induction dts as [|dt dts IH]; [reflexivity|].
    change (TickAll (dt :: dts) w) with (TickAll dts (Subsystem.Tick dt w)).
    rewrite (Tick_not_running dt w Hn). exact IH.
Qed.

Lemma TickAll_MasterTime_witness :
  MasterTime (Sub (TickAll [1; 2; 3] FastWorld)) =
    0 + GlobalSpeed (GlobalConfig (Sub FastWorld)) * Elapsed [1; 2; 3] /\
  TickAll [1; 2; 3] (Subsystem.PauseAll FastWorld) = Subsystem.PauseAll FastWorld.
Proof.
  split.
  - destruct (TickAll_MasterTime [1; 2; 3] FastWorld) as [H _].
    destruct H as [_ H]; [split; reflexivity | exact H].
  - destruct (TickAll_MasterTime [1; 2; 3] (Subsystem.PauseAll FastWorld)) as [_ H].
    apply H. right. reflexivity.
Defined.

Lemma TickMany_phase (dts : list R) (L : UPatternLightComponent) :
  PatternSettings (Light.TickMany dts L) = PatternSettings L /\
  CurrentTime (Light.TickMany dts L) =
  CurrentTime L + Speed (PatternSettings L) * Elapsed dts.
Proof.
  revert L. induction dts as [|dt dts IH]; intros L.
  - simpl. split; [reflexivity | lra].
  - rewrite TickMany_cons. destruct (IH (Light.TickComponent dt L)) as [Hs Ht].
    rewrite Hs, Ht, TickComponent_PatternSettings, TickComponent_CurrentTime.
    split; [reflexivity | simpl; lra].
Qed.

Lemma TickComponent_keeps_place (dt : R) (L : UPatternLightComponent) :
  ComponentLocation (Light.TickComponent dt L) = ComponentLocation L /\
  LightRadius (Light.TickComponent dt L) = LightRadius L /\
  BaseIntensity (Light.TickComponent dt L) = BaseIntensity L /\
  SyncGroup (Light.TickComponent dt L) = SyncGroup L.
Proof.
  unfold Light.TickComponent, Light.UpdateLightProperties; simpl.
  destruct (Rgt_dec (FlashTimer L) 0); [destruct (Rle_dec _ 0)|]; repeat split.
Qed.

(** X8.  Over a run of frames a light's phase time grows by its speed
    times the elapsed time, whatever the flash state is; ticking changes
    neither the pattern settings (so not the speed) nor the light's
    location, radius, base intensity or sync group. *)
Theorem TickMany_CurrentTime (dts : list R) (L : UPatternLightComponent) :
  CurrentTime (Light.TickMany dts L) =
    CurrentTime L + Speed (PatternSettings L) * Elapsed dts /\
  PatternSettings (Light.TickMany dts L) = PatternSettings L /\
  ComponentLocation (Light.TickMany dts L) = ComponentLocation L /\
  LightRadius (Light.TickMany dts L) = LightRadius L /\
  BaseIntensity (Light.TickMany dts L) = BaseIntensity L /\
  SyncGroup (Light.TickMany dts L) = SyncGroup L.
Proof.
  revert L. induction dts as [|dt dts IH]; intros L.
  - simpl. repeat split. lra.
  - rewrite TickMany_cons.
    destruct (IH (Light.TickComponent dt L)) as (Ht & Hs & Hl & Hr & Hb & Hg).
    destruct (TickComponent_keeps_place dt L) as (Hl1 & Hr1 & Hb1 & Hg1).
    rewrite Ht, Hs, Hl, Hr, Hb, Hg, Hl1, Hr1, Hb1, Hg1.
    rewrite TickComponent_PatternSettings, TickComponent_CurrentTime.
    repeat split. simpl. lra.
Qed.

(** ** Lights near a point *)

Lemma LightsAtStep_eq (Location : FVector) (Radius : R) (w : World)
    (Result : list nat) (h : nat) :
  LightsAtStep Location Radius w Result h =
  if NearLightb Location Radius w h then Result ++ [h] else Result.
Proof.
  unfold LightsAtStep, NearLightb.
  destruct (LightHeap w !! h) as [L|]; [|reflexivity].
  destruct (Rle_dec _ _); reflexivity.
Qed.

Lemma LightsAt_loop (Location : FVector) (Radius : R) (w : World) (hs : list nat) :
  forall Result,
    fold_left (LightsAtStep Location Radius w) hs Result =
    Result ++ List.filter (NearLightb Location Radius w) hs.
Proof.
  induction hs as [|h hs IH]; intros Result; simpl.
  - rewrite app_nil_r. reflexivity.
  - rewrite IH, LightsAtStep_eq.
    destruct (NearLightb Location Radius w h); [|reflexivity].
    rewrite <- app_assoc. reflexivity.
Qed.

(** X9.  [GetLightsAtLocation] returns, in registration order, exactly the
    live registered lights whose distance to the point is at most the
    query radius plus their own radius; with a non-negative query radius
    it returns every live registered light that has the point strictly
    within its own radius (the lights the intensity query sums). *)
Theorem GetLightsAtLocation_spec (Location : FVector) (Radius : R) (w : World) :
  GetLightsAtLocation Location Radius w =
    List.filter (NearLightb Location Radius w) (RegisteredLights (Sub w)) /\
  (forall h,
     h ∈ GetLightsAtLocation Location Radius w <->
     h ∈ RegisteredLights (Sub w) /\
     exists L, LightHeap w !! h = Some L /\
       Dist Location (ComponentLocation L) <= Radius + LightRadius L) /\
  (0 <= Radius ->
     forall h L, h ∈ RegisteredLights (Sub w) -> LightHeap w !! h = Some L ->
       InRangeb Location L = true ->
       h ∈ GetLightsAtLocation Location Radius w).
Proof.
  assert (E : GetLightsAtLocation Location Radius w =
              List.filter (NearLightb Location Radius w) (RegisteredLights (Sub w))).
  { unfold GetLightsAtLocation. rewrite LightsAt_loop. reflexivity. }
  assert (Hmem : forall h,
     h ∈ GetLightsAtLocation Location Radius w <->
     h ∈ RegisteredLights (Sub w) /\
     exists L, LightHeap w !! h = Some L /\
       Dist Location (ComponentLocation L) <= Radius + LightRadius L).
  { intros h. rewrite E, !list_elem_of_In, filter_In. unfold NearLightb.
    destruct (LightHeap w !! h) as [L|].
    - destruct (Rle_dec _ _) as [Hle|Hgt]; split.
      + intros [Hin _]. split; [exact Hin | exists L; split; [reflexivity | exact Hle]].
      + intros [Hin _]. split; [exact Hin | reflexivity].
      + intros [_ Hf]. discriminate.
      + intros [_ (L' & HL' & Hle)]. injection HL' as <-. contradiction.
    - split; [intros [_ Hf]; discriminate | intros [_ (L' & HL' & _)]; discriminate]. }
  repeat apply conj; [exact E | exact Hmem |].
  intros HR h L Hin Hl Hrange. apply Hmem. split; [exact Hin|].
  exists L. split; [exact Hl|].
  unfold InRangeb in Hrange. destruct (Rlt_dec _ _); [lra | discriminate].
Qed.

Lemma GetLightsAtLocation_spec_witness :
  0%nat ∈ GetLightsAtLocation Origin 0 (OneLightWorld (PlainLight Red 5000)).
Proof.
  destruct (GetLightsAtLocation_spec Origin 0 (OneLightWorld (PlainLight Red 5000)))
    as (_ & _ & H).
  apply (H (Rle_refl 0) 0%nat (PlainLight Red 5000)).
  - simpl. apply list_elem_of_here.
  - simpl. apply lookup_singleton_eq.
  - apply (proj2 (PlainLight_in_range Red 5000 0)).
Defined.

(** ** The best reflection probe *)

Lemma BestReflectionStep_eq (Location : FVector) (w : World)
    (acc : option nat * R) (h : nat) :
  BestReflectionStep Location w acc h =
  match ProbeWeight Location w h with
  | Some y => if Rgt_dec y (snd acc) then (Some h, y) else acc
  | None => acc
  end.
Proof.
  unfold BestReflectionStep, ProbeWeight.
  destruct (ReflectionHeap w !! h) as [Rf|]; [|reflexivity].
  destruct (Rlt_dec _ _); reflexivity.
Qed.

Lemma BestAmong_step (Location : FVector) (w : World) (seen : list nat)
    (acc : option nat * R) (h : nat) :
  BestAmong Location w seen acc ->
  BestAmong Location w (seen ++ [h]) (BestReflectionStep Location w acc h).
Proof.
  intros Hinv. rewrite BestReflectionStep_eq.
  assert (Hsnoc : forall k, k ∈ seen ++ [h] -> k ∈ seen \/ k = h).
  { intros k Hk. apply elem_of_app in Hk as [Hk|Hk]; [left; exact Hk|].
    right. apply list_elem_of_singleton in Hk. exact Hk. }
  assert (Hbound : 0 <= snd acc /\
            forall k y, k ∈ seen -> ProbeWeight Location w k = Some y -> y <= snd acc).
  { unfold BestAmong in Hinv. destruct (fst acc) as [b|].
    - destruct Hinv as (_ & _ & Hpos & Hmax). split; [lra | exact Hmax].
    - destruct Hinv as (Hz & Hmax). rewrite Hz. split; [lra | exact Hmax]. }
  destruct Hbound as [Hnn Hmax].
  destruct (ProbeWeight Location w h) as [y|] eqn:Hy.
  - destruct (Rgt_dec y (snd acc)) as [Hgt|Hle].
    + unfold BestAmong. simpl. repeat apply conj.
      * apply elem_of_app. right. apply list_elem_of_singleton. reflexivity.
      * exact Hy.
      * lra.
      * intros k z Hk Hz. destruct (Hsnoc k Hk) as [Hs| ->].
        -- specialize (Hmax k z Hs Hz). lra.
        -- rewrite Hy in Hz. injection Hz as <-. lra.
    + unfold BestAmong in *. destruct (fst acc) as [b|].
      * destruct Hinv as (Hb & Hwb & Hpos & _). repeat apply conj.
        -- apply elem_of_app. left. exact Hb.
        -- exact Hwb.
        -- exact Hpos.
        -- intros k z Hk Hz. destruct (Hsnoc k Hk) as [Hs| ->].
           ++ apply (Hmax k z Hs Hz).
           ++ rewrite Hy in Hz. injection Hz as <-. lra.
      * destruct Hinv as (Hz0 & _). split; [exact Hz0|].
        intros k z Hk Hz. destruct (Hsnoc k Hk) as [Hs| ->].
        -- rewrite <- Hz0. apply (Hmax k z Hs Hz).
        -- rewrite Hy in Hz. injection Hz as <-. lra.
  - unfold BestAmong in *. destruct (fst acc) as [b|].
    + destruct Hinv as (Hb & Hwb & Hpos & _). repeat apply conj.
      * apply elem_of_app. left. exact Hb.
      * exact Hwb.
      * exact Hpos.
      * intros k z Hk Hz. destruct (Hsnoc k Hk) as [Hs| ->].
        -- apply (Hmax k z Hs Hz).
        -- rewrite Hy in Hz. discriminate.
    + destruct Hinv as (Hz0 & _). split; [exact Hz0|].
      intros k z Hk Hz. destruct (Hsnoc k Hk) as [Hs| ->].
      * rewrite <- Hz0. apply (Hmax k z Hs Hz).
      * rewrite Hy in Hz. discriminate.
Qed.

Lemma BestAmong_loop (Location : FVector) (w : World) (hs : list nat) :
  forall seen acc,
    BestAmong Location w seen acc ->
    BestAmong Location w (seen ++ hs)
      (fold_left (BestReflectionStep Location w) hs acc).
Proof.
  induction hs as [|h hs IH]; intros seen acc Hinv; simpl.
  - rewrite app_nil_r. exact Hinv.
  - replace (seen ++ h :: hs) with ((seen ++ [h]) ++ hs)
      by (rewrite <- app_assoc; reflexivity).
    apply IH, BestAmong_step, Hinv.
Qed.

(** X10.  When [GetBestReflectionAt] returns a probe, the probe is
    registered and live, the point is strictly within its radius, its
    weight [intensity * (1 - distance/radius)] is positive and no
    registered live probe in range has a larger weight; it returns no probe
    exactly when no registered live probe in range has a positive weight. *)
Theorem GetBestReflectionAt_spec (Location : FVector) (w : World) :
  (forall b, GetBestReflectionAt Location w = Some b ->
     b ∈ RegisteredReflections (Sub w) /\
     exists x, ProbeWeight Location w b = Some x /\ x > 0 /\
       forall h y, h ∈ RegisteredReflections (Sub w) ->
         ProbeWeight Location w h = Some y -> y <= x) /\
  (GetBestReflectionAt Location w = None <->
   forall h y, h ∈ RegisteredReflections (Sub w) ->
     ProbeWeight Location w h = Some y -> y <= 0).
Proof.
  assert (Hinv := BestAmong_loop Location w (RegisteredReflections (Sub w)) [] (None, 0)).
  simpl in Hinv. unfold GetBestReflectionAt.
  destruct (fold_left _ _ _) as [best bw]. unfold BestAmong in Hinv. simpl in *.
  assert (H0 : 0 = 0 /\ (forall h y, h ∈ @nil nat ->
                           ProbeWeight Location w h = Some y -> y <= 0)).
  { split; [reflexivity|]. intros h y Hin. apply not_elem_of_nil in Hin. contradiction. }
  specialize (Hinv H0). clear H0. split.
  - intros b Hb. subst best. destruct Hinv as (Hin & Hw & Hpos & Hmax).
    split; [exact Hin|]. exists bw. repeat split; assumption.
  - destruct best as [b|]; split.
    + discriminate.
    + intros Hall. destruct Hinv as (Hin & Hw & Hpos & _).
      specialize (Hall b bw Hin Hw). lra.
    + intros _. apply Hinv.
    + reflexivity.
Qed.

Lemma TwoProbeWorld_weights :
  ProbeWeight Origin TwoProbeWorld 0 = Some (1 * (1 - 0 / 100)) /\
  ProbeWeight Origin TwoProbeWorld 1 = Some (2 * (1 - 0 / 100)).
Proof.
  unfold ProbeWeight. simpl.
  rewrite lookup_insert_ne by discriminate.
  rewrite lookup_singleton_eq, lookup_insert_eq. simpl. rewrite Dist_self.
  destruct (Rlt_dec 0 100); [split; reflexivity | lra].
Qed.

Lemma TwoProbeWorld_best : GetBestReflectionAt Origin TwoProbeWorld = Some 1%nat.
Proof.
  unfold GetBestReflectionAt. simpl. rewrite !BestReflectionStep_eq.
  destruct TwoProbeWorld_weights as [-> W1]. simpl.
  destruct (Rgt_dec (1 * (1 - 0 / 100)) 0) as [_|Hn]; [|exfalso; lra].
  rewrite W1. simpl.
  destruct (Rgt_dec (2 * (1 - 0 / 100)) (1 * (1 - 0 / 100))) as [_|Hn];
    [reflexivity | exfalso; lra].
Qed.

Lemma GetBestReflectionAt_spec_witness :
  exists x, ProbeWeight Origin TwoProbeWorld 1 = Some x /\ x > 0 /\
    forall h y, h ∈ RegisteredReflections (Sub TwoProbeWorld) ->
      ProbeWeight Origin TwoProbeWorld h = Some y -> y <= x.
Proof.
  destruct (GetBestReflectionAt_spec Origin TwoProbeWorld) as [H _].
  exact (proj2 (H 1%nat TwoProbeWorld_best)).
Defined.

(** ** Flashing the lights near a point *)

Lemma FlashedAt_twice (Location : FVector) (Radius Duration Intensity : R)
    (L : UPatternLightComponent) :
  FlashedAt Location Radius Duration Intensity
    (FlashedAt Location Radius Duration Intensity L)
  = FlashedAt Location Radius Duration Intensity L.
Proof. reflexivity. Qed.

Lemma flash_loop (Location : FVector) (Radius Duration Intensity : R) (hs : list nat) :
  forall (heap : gmap nat UPatternLightComponent) (k : nat),
    fold_left
      (fun heap WeakLight =>
         match heap !! WeakLight with
         | Some L =>
             let Distance := Dist Location (ComponentLocation L) in
             if Rlt_dec Distance Radius then
               let FalloffIntensity := Intensity * (1 - Distance / Radius) in
               <[WeakLight := Light.TriggerFlash Duration FalloffIntensity L]> heap
             else heap
         | None => heap
         end) hs heap !! k
    = match heap !! k with
      | Some L =>
          Some (if bool_decide (k ∈ hs) && FlashReachesb Location Radius L
                then FlashedAt Location Radius Duration Intensity L else L)
      | None => None
      end.
Proof.
  induction hs as [|h hs IH]; intros heap k.
  - simpl. destruct (heap !! k); reflexivity.
  - cbn [fold_left]. rewrite IH. clear IH.
    destruct (heap !! h) as [Lh|] eqn:Hh.
    + cbv zeta. destruct (Rlt_dec (Dist Location (ComponentLocation Lh)) Radius) as [Hr|Hr].
      * destruct (decide (h = k)) as [->|Hne].
        -- rewrite lookup_insert_eq, Hh.
           rewrite (bool_decide_eq_true_2 (k ∈ k :: hs)) by apply list_elem_of_here.
           assert (Hreach : FlashReachesb Location Radius Lh = true).
           { unfold FlashReachesb. destruct (Rlt_dec _ _); [reflexivity|contradiction]. }
           rewrite Hreach. simpl.
           destruct (bool_decide (k ∈ hs) && _); reflexivity.
        -- rewrite lookup_insert_ne by exact Hne.
           destruct (heap !! k) as [Lk|]; [|reflexivity].
           rewrite (bool_decide_ext (k ∈ h :: hs) (k ∈ hs)); [reflexivity|].
           rewrite elem_of_cons. split; [intros [->|H]; [contradiction | exact H] | tauto].
      * destruct (heap !! k) as [Lk|] eqn:Hk; [|reflexivity].
        destruct (decide (h = k)) as [->|Hne].
        -- rewrite Hh in Hk. injection Hk as <-.
           assert (Hreach : FlashReachesb Location Radius Lh = false).
           { unfold FlashReachesb. destruct (Rlt_dec _ _); [contradiction|reflexivity]. }
           rewrite Hreach, !andb_false_r. reflexivity.
        -- rewrite (bool_decide_ext (k ∈ h :: hs) (k ∈ hs)); [reflexivity|].
           rewrite elem_of_cons. split; [intros [->|H]; [contradiction | exact H] | tauto].
    + destruct (heap !! k) as [Lk|] eqn:Hk; [|reflexivity].
      assert (Hne : h <> k) by (intros ->; rewrite Hh in Hk; discriminate).
      rewrite (bool_decide_ext (k ∈ h :: hs) (k ∈ hs)); [reflexivity|].
      rewrite elem_of_cons. split; [intros [->|H]; [contradiction | exact H] | tauto].
Qed.

(** X11.  [TriggerFlashAtLocation] flashes exactly the live registered
    lights that have the point strictly within the given radius: such a
    light gets the given duration as timer and
    [Intensity * (1 - distance/Radius)] as multiplier (linear falloff), and
    nothing else of it changes; every other light, and the subsystem
    itself, is left as it was. *)
Theorem TriggerFlashAtLocation_spec (Location : FVector)
    (Radius Duration Intensity : R) (w : World) (h : nat) (L : UPatternLightComponent) :
  LightHeap w !! h = Some L ->
  let w' := Subsystem.TriggerFlashAtLocation Location Radius Duration Intensity w in
  Sub w' = Sub w /\
  (h ∈ RegisteredLights (Sub w) -> Dist Location (ComponentLocation L) < Radius ->
     exists L', LightHeap w' !! h = Some L' /\
       FlashTimer L' = Duration /\
       FlashIntensityMultiplier L' =
         Intensity * (1 - Dist Location (ComponentLocation L) / Radius) /\
       L' = Light.with_flash L (FlashTimer L') (FlashIntensityMultiplier L')) /\
  (h ∉ RegisteredLights (Sub w) \/ ~ Dist Location (ComponentLocation L) < Radius ->
     LightHeap w' !! h = Some L).
Proof.
  intros Hl w'.
  assert (E : LightHeap w' !! h =
              Some (if bool_decide (h ∈ RegisteredLights (Sub w))
                       && FlashReachesb Location Radius L
                    then FlashedAt Location Radius Duration Intensity L else L)).
  { unfold w', Subsystem.TriggerFlashAtLocation. simpl.
    rewrite flash_loop, Hl. reflexivity. }
  repeat apply conj.
  - reflexivity.
  - intros Hin Hr. rewrite E, bool_decide_eq_true_2 by exact Hin.
    unfold FlashReachesb. destruct (Rlt_dec _ _); [|contradiction]. simpl.
    eexists. split; [reflexivity|]. repeat split.
  - intros [Hn|Hn]; rewrite E.
    + rewrite bool_decide_eq_false_2 by exact Hn. reflexivity.
    + unfold FlashReachesb. destruct (Rlt_dec _ _); [contradiction|].
      rewrite andb_false_r. reflexivity.
Qed.

Lemma TriggerFlashAtLocation_spec_witness :
  exists L', LightHeap (Subsystem.TriggerFlashAtLocation Origin 10 0.1 8
                          (OneLightWorld (PlainLight Red 5000))) !! 0%nat = Some L' /\
    FlashTimer L' = 0.1 /\
    FlashIntensityMultiplier L' =
      8 * (1 - Dist Origin (ComponentLocation (PlainLight Red 5000)) / 10) /\
    L' = Light.with_flash (PlainLight Red 5000) (FlashTimer L') (FlashIntensityMultiplier L').
Proof.
  destruct (TriggerFlashAtLocation_spec Origin 10 0.1 8
              (OneLightWorld (PlainLight Red 5000)) 0%nat (PlainLight Red 5000))
    as (_ & H & _).
  - simpl. apply lookup_singleton_eq.
  - apply H.
    + simpl. apply list_elem_of_here.
    + simpl. rewrite Dist_self. lra.
Defined.

(** ** What [SyncGroup] leaves alone *)

Lemma SameButPhase_refl (L : UPatternLightComponent) : SameButPhase L L.
Proof. unfold SameButPhase. repeat split. Qed.

Lemma SameButPhase_trans (L1 L2 L3 : UPatternLightComponent) :
  SameButPhase L1 L2 -> SameButPhase L2 L3 -> SameButPhase L1 L3.
Proof.
  unfold SameButPhase. intros H12 H23.
  repeat match goal with H : _ /\ _ |- _ => destruct H end.
  repeat split; etransitivity; eassumption.
Qed.

Lemma SameButPhase_SyncWith (M L : UPatternLightComponent) :
  SameButPhase L (Light.SyncWith M L).
Proof. unfold SameButPhase. repeat split. Qed.

Lemma SyncStep_frame (Master : nat) (heap : gmap nat UPatternLightComponent) (h : nat) :
  (forall k, k <> h -> Subsystem.SyncStep Master heap h !! k = heap !! k) /\
  (forall k L, heap !! k = Some L ->
     exists L', Subsystem.SyncStep Master heap h !! k = Some L' /\ SameButPhase L L').
Proof.
  unfold Subsystem.SyncStep.
  destruct (heap !! Master) as [M|]; [destruct (heap !! h) as [Lh|] eqn:Hh|].
  - split.
    + intros k Hk. apply lookup_insert_ne. congruence.
    + intros k L Hl. destruct (decide (h = k)) as [->|Hne].
      * rewrite Hh in Hl. injection Hl as <-. rewrite lookup_insert_eq.
        eexists. split; [reflexivity | apply SameButPhase_SyncWith].
      * rewrite lookup_insert_ne by exact Hne.
        exists L. split; [exact Hl | apply SameButPhase_refl].
  - split; [reflexivity|]. intros k L Hl. exists L. split; [exact Hl | apply SameButPhase_refl].
  - split; [reflexivity|]. intros k L Hl. exists L. split; [exact Hl | apply SameButPhase_refl].
Qed.

Lemma SyncLoop_frame (Master : nat) (Rest : list nat) :
  forall heap : gmap nat UPatternLightComponent,
    (forall k, k ∉ Rest ->
       fold_left (Subsystem.SyncStep Master) Rest heap !! k = heap !! k) /\
    (forall k L, heap !! k = Some L ->
       exists L', fold_left (Subsystem.SyncStep Master) Rest heap !! k = Some L' /\
                  SameButPhase L L').
Proof.
  induction Rest as [|h Rest IH]; intros heap; simpl.
  - split; [reflexivity|]. intros k L Hl. exists L. split; [exact Hl | apply SameButPhase_refl].
  - destruct (SyncStep_frame Master heap h) as [Hout Hsame].
    destruct (IH (Subsystem.SyncStep Master heap h)) as [IHout IHsame].
    split.
    + intros k Hk. apply not_elem_of_cons in Hk as [Hne Hk].
      rewrite (IHout k Hk). apply Hout, Hne.
    + intros k L Hl. destruct (Hsame k L Hl) as (L1 & Hl1 & HS1).
      destruct (IHsame k L1 Hl1) as (L2 & Hl2 & HS2).
      exists L2. split; [exact Hl2 | apply (SameButPhase_trans L L1 L2); assumption].
Qed.

(** X12.  [SyncGroup] changes nothing of the subsystem; it is a no-op for
    a group with fewer than two live members (or an unknown group); it
    leaves every light that is not a live member of the group untouched;
    and of any light it changes at most the phase time and the phase
    offset. *)
Theorem SyncGroup_frame (GroupName : FName) (w : World) :
  let w' := Subsystem.SyncGroup GroupName w in
  Sub w' = Sub w /\
  ((length (Subsystem.GetLightsInSyncGroup GroupName w) <= 1)%nat -> w' = w) /\
  (forall k, k ∉ Subsystem.GetLightsInSyncGroup GroupName w ->
     LightHeap w' !! k = LightHeap w !! k) /\
  (forall k L, LightHeap w !! k = Some L ->
     exists L', LightHeap w' !! k = Some L' /\ SameButPhase L L').
Proof.
  intros w'. unfold w', Subsystem.SyncGroup.
  destruct (bool_decide (1 < length (Subsystem.GetLightsInSyncGroup GroupName w))%nat)
    eqn:Hb.
  - apply bool_decide_eq_true in Hb.
    destruct (Subsystem.GetLightsInSyncGroup GroupName w) as [|Master Rest];
      [simpl in Hb; lia|].
    destruct (SyncLoop_frame Master Rest (LightHeap w)) as [Hout Hsame].
    repeat apply conj.
    + reflexivity.
    + intros Hlen. simpl in Hlen, Hb. lia.
    + intros k Hk. apply not_elem_of_cons in Hk as [_ Hk]. simpl. apply Hout, Hk.
    + intros k L Hl. simpl. apply Hsame, Hl.
  - repeat apply conj; try reflexivity.
    intros k L Hl. exists L. split; [exact Hl | apply SameButPhase_refl].
Qed.

Lemma SyncGroup_frame_witness :
  Subsystem.SyncGroup "lamps" (OneLightWorld DefaultLight) = OneLightWorld DefaultLight /\
  exists L', LightHeap (Subsystem.SyncGroup "lamps" ThreeLampWorld) !! 2%nat = Some L' /\
             SameButPhase (GroupLight "lamps" 7 0.75) L'.
Proof.
  split.
  - destruct (SyncGroup_frame "lamps" (OneLightWorld DefaultLight)) as (_ & H & _).
    apply H. unfold Subsystem.GetLightsInSyncGroup. simpl.
    rewrite lookup_empty. simpl. lia.
  - destruct (SyncGroup_frame "lamps" ThreeLampWorld) as (_ & _ & _ & H).
    apply (H 2%nat). reflexivity.
Defined.

(** * Further properties of the evaluators and of the Blueprint library *)

Lemma library_unit (kind : ELightPattern) (Time Speed : R) :
  0 <= BlueprintLibrary.EvaluatePattern kind Time Speed <= 1.
Proof.
  unfold BlueprintLibrary.EvaluatePattern, FMath.Sin. cbv zeta.
  destruct kind; try lra.
  - pose proof (SIN_bound (Time * Speed * 2 * PI)). lra.
  - pose proof (sin_prod2 (Time * Speed * 20) (Time * Speed * 7.3)). lra.
  - destruct (Rgt_dec _ 0); lra.
  - pose proof (sin_prod3 (Time * Speed * 12) (Time * Speed * 5.7) (Time * Speed * 3.1)).
    lra.
  - pose proof (sin_prod2 (Time * Speed * 8) (Time * Speed * 4.3)). lra.
  - destruct (Rgt_dec _ 0); lra.
Qed.

(** X13.  The standalone evaluator returns a value in [[0, 1]] for every
    kind, time and speed; [LerpPatterns] returns the first pattern's value
    at [Alpha = 0], the second's at [Alpha = 1], and for [Alpha] in
    [[0, 1]] a value between the two, hence in [[0, 1]]. *)
Theorem LerpPatterns_spec (PatternA PatternB : ELightPattern) (Time Alpha : R) :
  let A := BlueprintLibrary.EvaluatePattern PatternA Time 1 in
  let B := BlueprintLibrary.EvaluatePattern PatternB Time 1 in
  (forall kind t s, 0 <= BlueprintLibrary.EvaluatePattern kind t s <= 1) /\
  LerpPatterns PatternA PatternB Time 0 = A /\
  LerpPatterns PatternA PatternB Time 1 = B /\
  (0 <= Alpha <= 1 ->
     Rmin A B <= LerpPatterns PatternA PatternB Time Alpha <= Rmax A B /\
     0 <= LerpPatterns PatternA PatternB Time Alpha <= 1).
Proof.
  intros A B. repeat apply conj.
  - apply library_unit.
  - unfold LerpPatterns, FMath.Lerp. fold A B. lra.
  - unfold LerpPatterns, FMath.Lerp. fold A B. lra.
  - intros Ha. pose proof (library_unit PatternA Time 1) as HA.
    pose proof (library_unit PatternB Time 1) as HB. fold A in HA. fold B in HB.
    assert (Hb : Rmin A B <= LerpPatterns PatternA PatternB Time Alpha <= Rmax A B).
    { unfold LerpPatterns. fold A B. apply Lerp_between, Ha. }
    split; [exact Hb|].
    revert Hb. unfold Rmin, Rmax. destruct (Rle_dec A B); lra.
Qed.

Lemma LerpPatterns_spec_witness :
  0 <= LerpPatterns Fire Pulse 3 0.5 <= 1.
Proof.
  destruct (LerpPatterns_spec Fire Pulse 3 0.5) as (_ & _ & _ & H).
  apply H. lra.
Defined.

(** X14.  [EvaluatePattern(kind, Time, Speed)] of the library only depends
    on [Time * Speed], and for Steady, Pulse, Flicker, Strobe, Candle and
    Alarm it is the raw value the component's evaluator computes at phase
    time [Time * Speed]. *)
Theorem library_matches_component (L : UPatternLightComponent) (Time Speed : R) :
  BlueprintLibrary.EvaluatePattern (Pattern (PatternSettings L)) Time Speed =
    BlueprintLibrary.EvaluatePattern (Pattern (PatternSettings L)) (Time * Speed) 1 /\
  (In (Pattern (PatternSettings L)) [Steady; Pulse; Flicker; Strobe; Candle; Alarm] ->
     BlueprintLibrary.EvaluatePattern (Pattern (PatternSettings L)) Time Speed =
     Light.RawPattern L (Time * Speed)).
Proof.
  split.
  - unfold BlueprintLibrary.EvaluatePattern. cbv zeta. rewrite Rmult_1_r. reflexivity.
  - intros Hin. rewrite library_agrees_on_six by exact Hin.
    rewrite RawPattern_refines_table.
    + simpl in Hin.
      destruct Hin as [<-|[<-|[<-|[<-|[<-|[<-|[]]]]]]]; reflexivity.
    + intros Hc. rewrite Hc in Hin. simpl in Hin.
      destruct Hin as [H|[H|[H|[H|[H|[H|[]]]]]]]; discriminate.
Qed.

Lemma library_matches_component_witness :
  BlueprintLibrary.EvaluatePattern Candle 2 3 =
  Light.RawPattern (LightWith Candle 0 1 None) (2 * 3).
Proof.
  apply (library_matches_component (LightWith Candle 0 1 None) 2 3).
  simpl. tauto.
Defined.

(** X15.  The component's raw value is 1-periodic for Pulse, two-valued
    for Strobe (0 or 1) and Alarm (0.2 or 1), and constant 1 for Steady,
    where [EvaluatePattern] therefore returns [MaxIntensity]. *)
Theorem pattern_shapes (L : UPatternLightComponent) (T : R) :
  (Pattern (PatternSettings L) = Pulse ->
     Light.EvaluatePattern L (T + 1) = Light.EvaluatePattern L T) /\
  (Pattern (PatternSettings L) = Strobe ->
     Light.RawPattern L T = 0 \/ Light.RawPattern L T = 1) /\
  (Pattern (PatternSettings L) = Alarm ->
     Light.RawPattern L T = 0.2 \/ Light.RawPattern L T = 1) /\
  (Pattern (PatternSettings L) = Steady ->
     Light.EvaluatePattern L T = MaxIntensity (PatternSettings L)).
Proof.
  unfold Light.EvaluatePattern, Light.RawPattern, FMath.Sin, FMath.Lerp.
  repeat apply conj; intros ->.
  - replace ((T + 1) * 2 * PI) with (T * 2 * PI + 2 * INR 1 * PI) by (simpl; ring).
    rewrite sin_period. reflexivity.
  - destruct (Rgt_dec _ 0); [right | left]; reflexivity.
  - destruct (Rgt_dec _ 0); [right | left]; reflexivity.
  - ring.
Qed.

Lemma pattern_shapes_witness :
  Light.EvaluatePattern (LightWith Pulse 0.2 3 None) (0.3 + 1) =
  Light.EvaluatePattern (LightWith Pulse 0.2 3 None) 0.3.
Proof.
  apply (pattern_shapes (LightWith Pulse 0.2 3 None) 0.3). reflexivity.
Defined.

(** X16.  After [TriggerFlash(d, m)] with [d > 0], over frames with
    non-negative delta times, the multiplier is [m] and the timer is [d]
    minus the elapsed time as long as less than [d] has elapsed, and the
    multiplier is 1 once [d] or more has elapsed. *)
Theorem flash_lifetime (L : UPatternLightComponent) (d m : R) (dts : list R) :
  d > 0 ->
  Forall (fun dt => 0 <= dt) dts ->
  (Elapsed dts < d ->
     FlashIntensityMultiplier (Light.TickMany dts (Light.TriggerFlash d m L)) = m /\
     FlashTimer (Light.TickMany dts (Light.TriggerFlash d m L)) = d - Elapsed dts) /\
  (d <= Elapsed dts ->
     FlashIntensityMultiplier (Light.TickMany dts (Light.TriggerFlash d m L)) = 1).
Proof.
  intros Hd Hdts.
  destruct (running_flash dts (Light.TriggerFlash d m L) Hdts) as [A B];
    [simpl; lra|].
  split; [intros H; apply A; simpl; lra | intros H; apply B; simpl; lra].
Qed.

Lemma flash_lifetime_witness :
  FlashIntensityMultiplier
    (Light.TickMany [0.5; 0.25; 0.5] (Light.TriggerFlash 1 4 DefaultLight)) = 1.
Proof.
  destruct (flash_lifetime DefaultLight 1 4 [0.5; 0.25; 0.5]) as [_ H].
  - lra.
  - repeat (constructor; [lra|]). constructor.
  - apply H. simpl. lra.
Defined.

(** ** Shadow softness, Fresnel term, colour temperature *)

(** X17.  [GetShadowSoftness] is always in [[0, 1]]; for a distance above
    -1 it is 1 when the light radius is at least the distance plus one, 0
    when the light radius is not positive, and the quotient
    [LightRadius / (Distance + 1)] in between; it does not increase when
    the distance grows. *)
Theorem GetShadowSoftness_spec (LightRadius Distance : R) :
  0 <= GetShadowSoftness LightRadius Distance <= 1 /\
  (-1 < Distance ->
     (Distance + 1 <= LightRadius -> GetShadowSoftness LightRadius Distance = 1) /\
     (LightRadius <= 0 -> GetShadowSoftness LightRadius Distance = 0) /\
     (0 <= LightRadius <= Distance + 1 ->
        GetShadowSoftness LightRadius Distance = LightRadius / (Distance + 1)) /\
     (forall Farther, Distance <= Farther -> 0 <= LightRadius ->
        GetShadowSoftness LightRadius Farther <= GetShadowSoftness LightRadius Distance)).
Proof.
  split; [apply Clamp_unit|]. intros Hd.
  assert (Hquot : forall r d, -1 < d ->
            (r / (d + 1)) * (d + 1) = r /\ 0 < / (d + 1)).
  { intros r d Hpos. split; [field; lra | apply Rinv_0_lt_compat; lra]. }
  destruct (Hquot LightRadius Distance Hd) as [Hq Hinv].
  assert (Hc := Clamp_spec (LightRadius / (Distance + 1)) 0 1 ltac:(lra)).
  fold (GetShadowSoftness LightRadius Distance) in Hc.
  destruct Hc as (Hrange & Hin & Hlow & Hhigh).
  repeat apply conj.
  - intros Hr.
    destruct (Rle_lt_dec (LightRadius / (Distance + 1)) 1) as [Hle|Hgt].
    + rewrite Hin; [nra|]. split; [|exact Hle]. unfold Rdiv. nra.
    + apply Hhigh, Hgt.
  - intros Hr.
    destruct (Rle_lt_dec 0 (LightRadius / (Distance + 1))) as [Hge|Hlt].
    + rewrite Hin; [nra|]. split; [exact Hge|]. unfold Rdiv. nra.
    + apply Hlow, Hlt.
  - intros [H0 H1]. apply Hin. split.
    + unfold Rdiv. nra.
    + apply (Rmult_le_reg_r (Distance + 1)); [lra|]. rewrite Hq. lra.
  - intros Farther Hf Hr.
    assert (Hf1 : -1 < Farther) by lra.
    destruct (Hquot LightRadius Farther Hf1) as [Hq' Hinv'].
    assert (Hmono : LightRadius / (Farther + 1) <= LightRadius / (Distance + 1)).
    { unfold Rdiv. apply Rmult_le_compat_l; [exact Hr|].
      apply Rinv_le_contravar; lra. }
    unfold GetShadowSoftness, FMath.Clamp.
    destruct (Rlt_dec (LightRadius / (Farther + 1)) 0),
             (Rlt_dec (LightRadius / (Distance + 1)) 0),
             (Rlt_dec (LightRadius / (Farther + 1)) 1),
             (Rlt_dec (LightRadius / (Distance + 1)) 1); lra.
Qed.

Lemma GetShadowSoftness_spec_witness :
  GetShadowSoftness 50 99 = 50 / (99 + 1) /\ GetShadowSoftness 500 99 = 1.
Proof.
  destruct (GetShadowSoftness_spec 50 99) as [_ H].
  destruct (GetShadowSoftness_spec 500 99) as [_ H'].
  split.
  - apply H; lra.
  - apply H'; lra.
Defined.

(** X18.  For an index of refraction above 0 and directions whose dot
    product has absolute value at most 1 (unit vectors), the base
    reflectance [F0 = ((1 - IOR)/(1 + IOR))^2] is in [[0, 1)) and
    [CalculateFresnelReflection] lies between [F0] and 1; it is [F0] when
    the directions are parallel and 1 when they are perpendicular. *)
Theorem CalculateFresnelReflection_spec (ViewDir Normal : FVector) (IOR : R) :
  0 < IOR ->
  Rabs (DotProduct ViewDir Normal) <= 1 ->
  let F0 := FMath.Square ((1 - IOR) / (1 + IOR)) in
  0 <= F0 < 1 /\
  F0 <= CalculateFresnelReflection ViewDir Normal IOR <= 1 /\
  (Rabs (DotProduct ViewDir Normal) = 1 ->
     CalculateFresnelReflection ViewDir Normal IOR = F0) /\
  (DotProduct ViewDir Normal = 0 ->
     CalculateFresnelReflection ViewDir Normal IOR = 1).
Proof.
  intros Hior Hdot F0.
  assert (Hq : -1 < (1 - IOR) / (1 + IOR) < 1).
  { assert (Hd : 0 < / (1 + IOR)) by (apply Rinv_0_lt_compat; lra).
    assert (E : (1 - IOR) / (1 + IOR) * (1 + IOR) = 1 - IOR) by (field; lra).
    split; apply (Rmult_lt_reg_r (1 + IOR)); try lra; rewrite E; lra. }
  assert (HF0 : 0 <= F0 < 1).
  { unfold F0, FMath.Square. revert Hq.
    generalize ((1 - IOR) / (1 + IOR)). intros q Hq. nra. }
  assert (Hc : 0 <= 1 - Rabs (DotProduct ViewDir Normal) <= 1).
  { pose proof (Rabs_pos (DotProduct ViewDir Normal)). lra. }
  pose proof (unit_pow _ 5 Hc) as Hp.
  unfold CalculateFresnelReflection, FMath.Pow. fold F0. cbv zeta.
  repeat apply conj.
  - exact (proj1 HF0).
  - exact (proj2 HF0).
  - nra.
  - nra.
  - intros ->. replace (1 - 1) with 0 by ring. simpl. ring.
  - intros ->. rewrite Rabs_R0. replace (1 - 0) with 1 by ring. simpl. ring.
Qed.

Lemma CalculateFresnelReflection_spec_witness :
  CalculateFresnelReflection (At 1) (At 1) 1.5 = FMath.Square ((1 - 1.5) / (1 + 1.5)).
Proof.
  assert (Hdot : DotProduct (At 1) (At 1) = 1) by (unfold DotProduct; simpl; ring).
  destruct (CalculateFresnelReflection_spec (At 1) (At 1) 1.5) as (_ & _ & H & _).
  - lra.
  - rewrite Hdot, Rabs_R1. lra.
  - apply H. rewrite Hdot. apply Rabs_R1.
Defined.

(** X19.  [ColorTemperatureToRGB] returns an opaque colour whose three
    colour channels are in [[0, 1]]; red is 1 up to 6600 K, blue is 0 up to
    1900 K and 1 above 6600 K. *)
Theorem ColorTemperatureToRGB_spec (Kelvin : R) :
  let c := ColorTemperatureToRGB Kelvin in
  (0 <= cR c <= 1 /\ 0 <= cG c <= 1 /\ 0 <= cB c <= 1 /\ cA c = 1) /\
  (Kelvin <= 6600 -> cR c = 1) /\
  (Kelvin <= 1900 -> cB c = 0) /\
  (6600 < Kelvin -> cB c = 1).
Proof.
  unfold ColorTemperatureToRGB. cbv zeta.
  assert (H1 : FMath.Clamp (255 / 255) 0 1 = 1).
  { unfold FMath.Clamp. destruct (Rlt_dec _ 0); [lra|]. destruct (Rlt_dec _ 1); lra. }
  assert (H0 : FMath.Clamp (0 / 255) 0 1 = 0).
  { unfold FMath.Clamp. destruct (Rlt_dec _ 0); [lra|]. destruct (Rlt_dec _ 1); lra. }
  destruct (Rle_dec (Kelvin / 100) 66) as [Hlow|Hhigh].
  - destruct (Rle_dec (Kelvin / 100) 19) as [H19|H19]; simpl;
      (repeat apply conj; try apply Clamp_unit; try reflexivity; try exact H1;
       try exact H0; intros; try lra).
  - simpl. repeat apply conj; try apply Clamp_unit; try reflexivity;
      try exact H1; intros; lra.
Qed.

Lemma ColorTemperatureToRGB_spec_witness :
  cR (ColorTemperatureToRGB 3000) = 1 /\ cB (ColorTemperatureToRGB 1500) = 0 /\
  cB (ColorTemperatureToRGB 9000) = 1.
Proof.
  destruct (ColorTemperatureToRGB_spec 3000) as (_ & HR & _).
  destruct (ColorTemperatureToRGB_spec 1500) as (_ & _ & HB0 & _).
  destruct (ColorTemperatureToRGB_spec 9000) as (_ & _ & _ & HB1).
  repeat apply conj; [apply HR | apply HB0 | apply HB1]; lra.
Defined.

(** ** Global intensity and the queries *)

(** X20.  After [SetGlobalIntensity(v)] the intensity query is the clamped
    [v] times the unscaled sum of the lights' contributions, so
    [SetGlobalIntensity(0)] darkens every point; the colour query does not
    depend on the global intensity; neither query depends on the global
    speed or on the pause flag. *)
Theorem global_intensity_scales (v : R) (Location : FVector) (w : World) :
  Subsystem.GetCombinedIntensityAt Location (Subsystem.SetGlobalIntensity v w) =
    FMath.Clamp v 0 2 * Rsum (map (QuadraticTerm Location) (LightsInRange Location w)) /\
  Subsystem.GetCombinedIntensityAt Location (Subsystem.SetGlobalIntensity 0 w) = 0 /\
  Subsystem.GetCombinedColorAt Location (Subsystem.SetGlobalIntensity v w) =
    Subsystem.GetCombinedColorAt Location w /\
  Subsystem.GetCombinedIntensityAt Location (Subsystem.SetGlobalSpeed v w) =
    Subsystem.GetCombinedIntensityAt Location w /\
  Subsystem.GetCombinedIntensityAt Location (Subsystem.PauseAll w) =
    Subsystem.GetCombinedIntensityAt Location w.
Proof.
  assert (E : forall x,
    Subsystem.GetCombinedIntensityAt Location (Subsystem.SetGlobalIntensity x w) =
    FMath.Clamp x 0 2 * Rsum (map (QuadraticTerm Location) (LightsInRange Location w))).
  { intros x. unfold Subsystem.GetCombinedIntensityAt. simpl.
    rewrite (fold_left_pointwise
               (Subsystem.IntensityStep Location (Subsystem.SetGlobalIntensity x w))
               (Subsystem.IntensityStep Location w)) by reflexivity.
    rewrite intensity_loop. unfold LightsInRange, LiveLights. ring. }
  repeat apply conj.
  - apply E.
  - rewrite E. unfold FMath.Clamp.
    destruct (Rlt_dec 0 0); [lra|]. destruct (Rlt_dec 0 2); lra.
  - apply color_query_ext; reflexivity.
  - apply intensity_query_ext; reflexivity.
  - apply intensity_query_ext; reflexivity.
Qed.

(** X21.  When every live light in range has a non-negative current
    intensity and the global intensity is not negative, the intensity
    query is not negative. *)
Theorem intensity_query_nonneg (Location : FVector) (w : World) :
  0 <= GlobalIntensity (GlobalConfig (Sub w)) ->
  Forall (fun L => 0 <= Light.GetCurrentIntensity L) (LightsInRange Location w) ->
  0 <= Subsystem.GetCombinedIntensityAt Location w.
Proof.
  intros Hg Hall. unfold Subsystem.GetCombinedIntensityAt.
  rewrite intensity_loop. fold (LiveLights w). fold (LightsInRange Location w).
  assert (Hs : 0 <= Rsum (map (QuadraticTerm Location) (LightsInRange Location w))).
  { induction Hall as [|L ls HL _ IH]; simpl; [lra|].
    assert (0 <= QuadraticTerm Location L).
    { unfold QuadraticTerm. apply Rmult_le_pos; [exact HL | apply pow2_ge_0]. }
    fold (Rsum (map (QuadraticTerm Location) ls)). lra. }
  nra.
Qed.

Lemma intensity_query_nonneg_witness :
  0 <= Subsystem.GetCombinedIntensityAt Origin (OneLightWorld (PlainLight Red 5000)).
Proof.
  apply intensity_query_nonneg.
  - simpl. lra.
  - rewrite OneLightWorld_in_range. constructor; [|constructor].
    rewrite PlainLight_intensity. lra.
Defined.

(** X22.  After [Deinitialize] nothing is registered: the intensity query
    is 0, the colour query black, no light is near any point, no sync
    group has a member and no reflection probe is found; the objects
    themselves are not touched. *)
Theorem Deinitialize_spec (w : World) (Location : FVector) (Radius : R) (g : FName) :
  let w' := Deinitialize w in
  Subsystem.GetCombinedIntensityAt Location w' = 0 /\
  Subsystem.GetCombinedColorAt Location w' = Color.Black /\
  GetLightsAtLocation Location Radius w' = [] /\
  Subsystem.GetLightsInSyncGroup g w' = [] /\
  GetBestReflectionAt Location w' = None /\
  Subsystem.SyncGroup g w' = w' /\
  LightHeap w' = LightHeap w /\ ReflectionHeap w' = ReflectionHeap w.
Proof.
  intros w'. unfold w', Deinitialize.
  assert (Hg : Subsystem.GetLightsInSyncGroup g
                 (Subsystem.with_sub w (Subsystem.with_registries (Sub w) [] [] ∅)) = []).
  { unfold Subsystem.GetLightsInSyncGroup. simpl. rewrite lookup_empty. reflexivity. }
  repeat apply conj.
  - unfold Subsystem.GetCombinedIntensityAt. simpl. ring.
  - unfold Subsystem.GetCombinedColorAt. simpl.
    destruct (Rgt_dec 0 0); [lra | reflexivity].
  - reflexivity.
  - exact Hg.
  - reflexivity.
  - unfold Subsystem.SyncGroup. rewrite Hg. reflexivity.
  - reflexivity.
  - reflexivity.
Qed.

(** ** Reflection probes in the registry *)

(** X23.  [RegisterReflection] never creates a duplicate entry and ignores
    a null pointer; a probe that has just been unregistered is not in the
    registry and is never the answer of [GetBestReflectionAt]. *)
Theorem reflection_registry (h : nat) (w : World) (Location : FVector) :
  (NoDup (RegisteredReflections (Sub w)) ->
     NoDup (RegisteredReflections (Sub (RegisterReflection h w)))) /\
  (ReflectionHeap w !! h = None -> RegisterReflection h w = w) /\
  (h ∉ RegisteredReflections (Sub (UnregisterReflection h w))) /\
  GetBestReflectionAt Location (UnregisterReflection h w) <> Some h.
Proof.
  repeat apply conj.
  - intros Hnd. unfold RegisterReflection.
    destruct (ReflectionHeap w !! h); [|exact Hnd].
    destruct (bool_decide (h ∈ RegisteredReflections (Sub w))) eqn:Hin; [exact Hnd|].
    apply bool_decide_eq_false in Hin. simpl. apply NoDup_app. repeat apply conj.
    + exact Hnd.
    + intros k Hk Hk'. apply list_elem_of_singleton in Hk'. subst k. contradiction.
    + apply NoDup_singleton.
  - intros Hn. unfold RegisterReflection. rewrite Hn. reflexivity.
  - simpl. rewrite elem_of_remove_all. tauto.
  - assert (Hinv := BestAmong_loop Location (UnregisterReflection h w)
                      (RegisteredReflections (Sub (UnregisterReflection h w)))
                      [] (None, 0)).
    unfold GetBestReflectionAt.
    destruct (fold_left _ _ _) as [best bw]. unfold BestAmong in Hinv. simpl in *.
    intros ->.
    destruct Hinv as (Hin & _).
    + split; [reflexivity|]. intros k y Hk. apply not_elem_of_nil in Hk. contradiction.
    + apply elem_of_remove_all in Hin. tauto.
Qed.

Lemma reflection_registry_witness :
  NoDup (RegisteredReflections (Sub (RegisterReflection 1 TwoProbeWorld))) /\
  RegisterReflection 7 TwoProbeWorld = TwoProbeWorld.
Proof.
  destruct (reflection_registry 1 TwoProbeWorld Origin) as (Hnd & _).
  destruct (reflection_registry 7 TwoProbeWorld Origin) as (_ & Hnull & _).
  split.
  - apply Hnd. simpl. apply NoDup_cons. split.
    + intros Hin. apply list_elem_of_singleton in Hin. discriminate.
    + apply NoDup_singleton.
  - apply Hnull. reflexivity.
Defined.

(** ** Starting phase *)

(** X24.  After [BeginPlay] the phase time equals the phase offset.  A
    light in a sync group, or with a non-zero configured offset, keeps its
    offset; only an ungrouped light with offset 0 takes the random value.
    Hence two grouped lights with the same configured offset and speed
    have the same phase time after any common run of frames, whatever the
    random values are. *)
Theorem BeginPlay_phase (r1 r2 : R) (L1 L2 : UPatternLightComponent) (dts : list R) :
  CurrentTime (BeginPlay r1 L1) = PhaseOffset (PatternSettings (BeginPlay r1 L1)) /\
  (SyncGroup L1 <> NAME_None \/ PhaseOffset (PatternSettings L1) <> 0 ->
     PhaseOffset (PatternSettings (BeginPlay r1 L1)) = PhaseOffset (PatternSettings L1)) /\
  (SyncGroup L1 = NAME_None -> PhaseOffset (PatternSettings L1) = 0 ->
     PhaseOffset (PatternSettings (BeginPlay r1 L1)) = r1) /\
  (SyncGroup L1 <> NAME_None -> SyncGroup L2 <> NAME_None ->
   PhaseOffset (PatternSettings L1) = PhaseOffset (PatternSettings L2) ->
   Speed (PatternSettings L1) = Speed (PatternSettings L2) ->
     CurrentTime (Light.TickMany dts (BeginPlay r1 L1)) =
     CurrentTime (Light.TickMany dts (BeginPlay r2 L2))).
Proof.
  assert (Hkeep : forall r L, SyncGroup L <> NAME_None ->
            BeginPlay r L =
            Light.with_time (Light.with_settings L (PatternSettings L))
              (PhaseOffset (PatternSettings L))).
  { intros r L Hg. unfold BeginPlay. cbv zeta.
    rewrite bool_decide_eq_false_2 by exact Hg. reflexivity. }
  repeat apply conj.
  - unfold BeginPlay. cbv zeta.
    destruct (bool_decide _); [destruct (Req_dec_T _ 0)|]; reflexivity.
  - intros [Hg|Ho]; unfold BeginPlay; cbv zeta.
    + rewrite bool_decide_eq_false_2 by exact Hg. reflexivity.
    + destruct (bool_decide _); [destruct (Req_dec_T _ 0)|]; [contradiction | |];
        reflexivity.
  - intros Hg Ho. unfold BeginPlay. cbv zeta.
    rewrite bool_decide_eq_true_2 by exact Hg.
    destruct (Req_dec_T _ 0); [reflexivity | contradiction].
  - intros Hg1 Hg2 Ho Hs.
    destruct (TickMany_phase dts (BeginPlay r1 L1)) as [_ ->].
    destruct (TickMany_phase dts (BeginPlay r2 L2)) as [_ ->].
    rewrite (Hkeep r1 L1 Hg1), (Hkeep r2 L2 Hg2). simpl. rewrite Ho, Hs. reflexivity.
Qed.

Lemma BeginPlay_phase_witness :
  CurrentTime (Light.TickMany [0.5; 1] (BeginPlay 0.3 (GroupLight "lamps" 9 0.25))) =
  CurrentTime (Light.TickMany [0.5; 1] (BeginPlay 0.8 (GroupLight "lamps" 4 0.25))) /\
  PhaseOffset (PatternSettings (BeginPlay 0.3 DefaultLight)) = 0.3.
Proof.
  destruct (BeginPlay_phase 0.3 0.8 (GroupLight "lamps" 9 0.25)
              (GroupLight "lamps" 4 0.25) [0.5; 1]) as (_ & _ & _ & Hphase).
  destruct (BeginPlay_phase 0.3 0.8 DefaultLight DefaultLight []) as (_ & _ & Hrand & _).
  split.
  - apply Hphase; simpl; try discriminate; reflexivity.
  - apply Hrand; reflexivity.
Defined.
